(** * Quiz view controller (src/index.tsx): a shallow embedding and its properties

    The page script keeps three module-level variables ([allQuestions],
    [currentQuestionIndex], [currentMode]), five cached element handles, and
    otherwise works by mutating the host document.  The embedding therefore
    has two layers:

    - [Document]: the part of the DOM the script reads and writes -- the node
      tree (child lists), classes, the data attributes the script uses,
      the [disabled] attribute, inline styles and text content -- together
      with the DOM operations the script calls ([innerHTML = ''],
      [appendChild], [insertBefore], [textContent = ...], [closest],
      [querySelector(All)], [getElementById], [nextElementSibling]).  Their
      behaviour, including the exceptions [insertBefore] and [appendChild]
      raise, follows the DOM Living Standard (pre-insertion validity,
      section 4.2.3).
    - [Page]: the document plus the script's own variables.

    A handler that can raise returns an [Outcome]; the page state at the
    moment of the exception is kept, because the browser reports the
    exception and goes on dispatching events on the page as it then is. *)

From stdpp Require Import gmap strings list fin_maps pretty.

Abbreviation node := nat.

(** ** Script-side data (src/index.tsx, lines 1-18) *)

Inductive Mode := ModeList | ModeSingle | ModeExam.

#[global] Instance Mode_eq_dec : EqDecision Mode.
Proof. solve_decision. Defined.

(** The string each mode is written as in the source and in [data-mode]. *)
Definition modeName (m : Mode) : string :=
  match m with
  | ModeList => "list"
  | ModeSingle => "single"
  | ModeExam => "exam"
  end.

Record QuestionRef := mkQuestionRef {
  element : node;
  originalParent : option node;       (* [parentElement], null for the root *)
  originalNextSibling : option node   (* [nextSibling], null for a last child *)
}.

(** ** The host document *)

Record Document := mkDocument {
  documentElement : node;                 (* the root element *)
  nodeCount : nat;                        (* how many nodes the parser made:
                                             no walk in the tree is longer *)
  childNodes : gmap node (list node);     (* ordered children, text nodes too *)
  elementNodes : gset node;               (* the nodes that are Elements *)
  idAttr : gmap node string;              (* the [id] attribute *)
  classList : gmap node (gset string);
  dataMode : gmap node string;            (* [data-mode] of mode buttons *)
  dataAttempts : gmap node nat;           (* [dataset.attempts], a numeral *)
  dataAnswered : gmap node bool;          (* [dataset.answered] *)
  disabledAttr : gset node;               (* nodes carrying [disabled] *)
  style : gmap (node * string) string;    (* inline style, per property *)
  textContent : gmap node string;         (* text assigned by the script *)
  bodyViewMode : option string            (* [document.body.dataset.viewMode] *)
}.

Definition withChildNodes (t : gmap node (list node)) (d : Document) : Document :=
  mkDocument (documentElement d) (nodeCount d) t (elementNodes d) (idAttr d)
    (classList d) (dataMode d) (dataAttempts d) (dataAnswered d)
    (disabledAttr d) (style d) (textContent d) (bodyViewMode d).

Definition withClassList (c : gmap node (gset string)) (d : Document) : Document :=
  mkDocument (documentElement d) (nodeCount d) (childNodes d) (elementNodes d)
    (idAttr d) c (dataMode d) (dataAttempts d) (dataAnswered d)
    (disabledAttr d) (style d) (textContent d) (bodyViewMode d).

Definition withDataAttempts (a : gmap node nat) (d : Document) : Document :=
  mkDocument (documentElement d) (nodeCount d) (childNodes d) (elementNodes d)
    (idAttr d) (classList d) (dataMode d) a (dataAnswered d)
    (disabledAttr d) (style d) (textContent d) (bodyViewMode d).

Definition withDataAnswered (a : gmap node bool) (d : Document) : Document :=
  mkDocument (documentElement d) (nodeCount d) (childNodes d) (elementNodes d)
    (idAttr d) (classList d) (dataMode d) (dataAttempts d) a
    (disabledAttr d) (style d) (textContent d) (bodyViewMode d).

Definition withDisabledAttr (x : gset node) (d : Document) : Document :=
  mkDocument (documentElement d) (nodeCount d) (childNodes d) (elementNodes d)
    (idAttr d) (classList d) (dataMode d) (dataAttempts d) (dataAnswered d)
    x (style d) (textContent d) (bodyViewMode d).

Definition withStyle (x : gmap (node * string) string) (d : Document) : Document :=
  mkDocument (documentElement d) (nodeCount d) (childNodes d) (elementNodes d)
    (idAttr d) (classList d) (dataMode d) (dataAttempts d) (dataAnswered d)
    (disabledAttr d) x (textContent d) (bodyViewMode d).

Definition withTextContent (x : gmap node string) (d : Document) : Document :=
  mkDocument (documentElement d) (nodeCount d) (childNodes d) (elementNodes d)
    (idAttr d) (classList d) (dataMode d) (dataAttempts d) (dataAnswered d)
    (disabledAttr d) (style d) x (bodyViewMode d).

Definition withBodyViewMode (x : option string) (d : Document) : Document :=
  mkDocument (documentElement d) (nodeCount d) (childNodes d) (elementNodes d)
    (idAttr d) (classList d) (dataMode d) (dataAttempts d) (dataAnswered d)
    (disabledAttr d) (style d) (textContent d) x.

(** *** Reading the tree *)

Definition kidsOf (t : gmap node (list node)) (n : node) : list node :=
  default [] (t !! n).

Definition kids (d : Document) (n : node) : list node := kidsOf (childNodes d) n.

(** Preorder walk below [n], [fuel] levels deep: document order. *)
Fixpoint subtree (t : gmap node (list node)) (fuel : nat) (n : node) : list node :=
  match fuel with
  | 0 => []
  | S f => n :: (kidsOf t n ≫= subtree t f)
  end.

Definition inclusiveDescendants (d : Document) (n : node) : list node :=
  subtree (childNodes d) (nodeCount d) n.

(** What [n.querySelectorAll] looks through: [n] itself is not a candidate. *)
Definition descendants (d : Document) (n : node) : list node :=
  drop 1 (inclusiveDescendants d n).

(** What [document.querySelectorAll] looks through. *)
Definition documentNodes (d : Document) : list node :=
  inclusiveDescendants d (documentElement d).

Definition classesOf (d : Document) (n : node) : gset string :=
  default ∅ (classList d !! n).

Definition hasClass (d : Document) (n : node) (c : string) : bool :=
  bool_decide (c ∈ classesOf d n).

Definition isElement (d : Document) (n : node) : bool :=
  bool_decide (n ∈ elementNodes d).

Definition hasId (d : Document) (i : string) (n : node) : bool :=
  bool_decide (idAttr d !! n = Some i).

Definition getElementById (d : Document) (i : string) : option node :=
  head (filter (λ n, hasId d i n = true) (documentNodes d)).

Definition parentNode (d : Document) (n : node) : option node :=
  fst <$> find (λ pl : node * list node, bool_decide (n ∈ pl.2))
            (map_to_list (childNodes d)).

(** The part of a child list that comes after [n]. *)
Fixpoint following (n : node) (l : list node) : list node :=
  match l with
  | [] => []
  | x :: l' => if decide (x = n) then l' else following n l'
  end.

Definition nextSibling (d : Document) (n : node) : option node :=
  p ← parentNode d n; head (following n (kids d p)).

Definition nextElementSibling (d : Document) (n : node) : option node :=
  p ← parentNode d n;
  head (filter (λ x, isElement d x = true) (following n (kids d p))).

(** [n.closest(sel)]: the nearest inclusive ancestor that matches. *)
Fixpoint closestFrom (d : Document) (fuel : nat) (sel : node → bool) (n : node)
  : option node :=
  if sel n then Some n
  else match fuel with
       | 0 => None
       | S f => match parentNode d n with
                | Some p => closestFrom d f sel p
                | None => None
                end
       end.

Definition closest (d : Document) (sel : node → bool) (n : node) : option node :=
  closestFrom d (nodeCount d) sel n.

Definition querySelectorAllIn (d : Document) (sel : node → bool) (n : node)
  : list node :=
  filter (λ x, sel x = true) (descendants d n).

Definition querySelectorIn (d : Document) (sel : node → bool) (n : node)
  : option node :=
  head (querySelectorAllIn d sel n).

Definition querySelectorAll (d : Document) (sel : node → bool) : list node :=
  filter (λ x, sel x = true) (documentNodes d).

(** *** Writing attributes *)

Definition classListAdd (n : node) (c : string) (d : Document) : Document :=
  withClassList (<[n := {[c]} ∪ classesOf d n]> (classList d)) d.

Definition classListRemove (n : node) (c : string) (d : Document) : Document :=
  withClassList (<[n := classesOf d n ∖ {[c]}]> (classList d)) d.

Definition classListToggle (n : node) (c : string) (d : Document) : Document :=
  if hasClass d n c then classListRemove n c d else classListAdd n c d.

Definition hasDisabled (d : Document) (n : node) : bool :=
  bool_decide (n ∈ disabledAttr d).

(** [n.setAttribute('disabled', 'true')] *)
Definition setDisabledAttr (n : node) (d : Document) : Document :=
  withDisabledAttr ({[n]} ∪ disabledAttr d) d.

(** [button.disabled = b]: on a button the property reflects the attribute. *)
Definition setDisabled (n : node) (b : bool) (d : Document) : Document :=
  if b then setDisabledAttr n d
  else withDisabledAttr (disabledAttr d ∖ {[n]}) d.

Definition getStyle (d : Document) (n : node) (prop : string) : string :=
  default "" (style d !! (n, prop)).

Definition setStyle (n : node) (prop v : string) (d : Document) : Document :=
  withStyle (<[(n, prop) := v]> (style d)) d.

(** [parseInt(q.dataset.attempts || '0', 10)] *)
Definition getAttempts (d : Document) (q : node) : nat :=
  default 0 (dataAttempts d !! q).

Definition setAttempts (q : node) (a : nat) (d : Document) : Document :=
  withDataAttempts (<[q := a]> (dataAttempts d)) d.

(** [q.dataset.answered === 'true'] *)
Definition isAnswered (d : Document) (q : node) : bool :=
  bool_decide (dataAnswered d !! q = Some true).

Definition setAnswered (q : node) (b : bool) (d : Document) : Document :=
  withDataAnswered (<[q := b]> (dataAnswered d)) d.

(** *** Writing the tree *)

(** [n.innerHTML = '']: every child of [n] is removed. *)
Definition removeAllChildren (n : node) (d : Document) : Document :=
  withChildNodes (<[n := []]> (childNodes d)) d.

(** [n.textContent = s]: the children of [n] are replaced by the text [s]
    (kept as the node's text, not as a child: a Text node has no class, is no
    Element and is never looked up again). *)
Definition setTextContent (n : node) (s : string) (d : Document) : Document :=
  withTextContent (<[n := s]> (textContent d)) (removeAllChildren n d).

(** Taking [n] out of whatever child list holds it. *)
Definition without (n : node) (l : list node) : list node :=
  filter (λ x, x ≠ n) l.

Definition detach (n : node) (t : gmap node (list node)) : gmap node (list node) :=
  without n <$> t.

(** Putting [n] into a child list right before [r]. *)
Fixpoint insertBeforeIn (n r : node) (l : list node) : list node :=
  match l with
  | [] => [n]
  | x :: l' => if decide (x = r) then n :: x :: l' else x :: insertBeforeIn n r l'
  end.

Definition placeAt (n : node) (ref : option node) (l : list node) : list node :=
  match ref with
  | None => l ++ [n]
  | Some r => insertBeforeIn n r l
  end.

Inductive Exn := HierarchyRequestError | NotFoundError | TypeError.

#[global] Instance Exn_eq_dec : EqDecision Exn.
Proof. solve_decision. Defined.

(** [parent.insertBefore(n, ref)], that is the standard's "pre-insert":
    - [n] must not be an inclusive ancestor of [parent]
      (else HierarchyRequestError);
    - a non-null [ref] must be a child of [parent] (else NotFoundError);
    - when [ref] is [n] itself, the reference becomes [n]'s next sibling;
    - [n] leaves its old parent and enters [parent] before the reference,
      or at the end when there is none. *)
Definition insertBefore (parent n : node) (ref : option node) (d : Document)
  : Exn + Document :=
  if bool_decide (parent ∈ inclusiveDescendants d n) then inl HierarchyRequestError
  else
    let siblings := kids d parent in
    if match ref with
       | None => true
       | Some r => bool_decide (r ∈ siblings)
       end then
      let ref' := if bool_decide (ref = Some n)
                  then head (following n siblings) else ref in
      let t := detach n (childNodes d) in
      inr (withChildNodes (<[parent := placeAt n ref' (kidsOf t parent)]> t) d)
    else inl NotFoundError.

(** [parent.appendChild(n)] is pre-insert before null. *)
Definition appendChild (parent n : node) (d : Document) : Exn + Document :=
  insertBefore parent n None d.

(** ** The page: document and script variables *)

Record Page := mkPage {
  document : Document;
  allQuestions : list QuestionRef;
  currentQuestionIndex : nat;
  currentMode : Mode;
  singleQuestionContainer : option node;
  questionProgress : option node;
  prevQuestionBtn : option node;
  nextQuestionBtn : option node;
  fabControls : option node
}.

Definition withDocument (d : Document) (s : Page) : Page :=
  mkPage d (allQuestions s) (currentQuestionIndex s) (currentMode s)
    (singleQuestionContainer s) (questionProgress s) (prevQuestionBtn s)
    (nextQuestionBtn s) (fabControls s).

Definition onDocument (f : Document → Document) (s : Page) : Page :=
  withDocument (f (document s)) s.

Definition withCurrentQuestionIndex (i : nat) (s : Page) : Page :=
  mkPage (document s) (allQuestions s) i (currentMode s)
    (singleQuestionContainer s) (questionProgress s) (prevQuestionBtn s)
    (nextQuestionBtn s) (fabControls s).

Definition withCurrentMode (m : Mode) (s : Page) : Page :=
  mkPage (document s) (allQuestions s) (currentQuestionIndex s) m
    (singleQuestionContainer s) (questionProgress s) (prevQuestionBtn s)
    (nextQuestionBtn s) (fabControls s).

(** What a call leaves behind: the page, and the exception if it raised. *)
Inductive Outcome :=
| Done (s : Page)
| Threw (e : Exn) (s : Page).

Definition pageOf (o : Outcome) : Page :=
  match o with Done s | Threw _ s => s end.

Definition andThen (o : Outcome) (k : Page → Outcome) : Outcome :=
  match o with
  | Done s => k s
  | Threw e s => Threw e s
  end.

(** [xs.forEach(f)]: the first exception ends the loop. *)
Fixpoint forEach {A} (f : A → Page → Outcome) (xs : list A) (s : Page) : Outcome :=
  match xs with
  | [] => Done s
  | x :: xs' => andThen (f x s) (forEach f xs')
  end.

(** Lifting a DOM call that may raise. *)
Definition tryDocument (r : Exn + Document) (s : Page) : Outcome :=
  match r with
  | inl e => Threw e s
  | inr d => Done (withDocument d s)
  end.

(** ** The script (src/index.tsx) *)

(** Iterating a document update over a node list
    ([querySelectorAll(...).forEach]). *)
Fixpoint forEachNode (f : node → Document → Document) (l : list node)
  (d : Document) : Document :=
  match l with
  | [] => d
  | x :: l' => forEachNode f l' (f x d)
  end.

Definition isQuestion (d : Document) (n : node) : bool := hasClass d n "question".
Definition isOption (d : Document) (n : node) : bool := hasClass d n "option".
Definition isCorrectOption (d : Document) (n : node) : bool :=
  hasClass d n "option" && hasClass d n "correct".
Definition isShowAnswerBtn (d : Document) (n : node) : bool :=
  hasClass d n "show-answer-btn".
Definition isModeBtn (d : Document) (n : node) : bool := hasClass d n "mode-btn".

(** The progress readout, [`Soru ${index + 1} / ${allQuestions.length}`]. *)
Definition progressText (index total : nat) : string :=
  "Soru " +:+ pretty (index + 1) +:+ " / " +:+ pretty total.

(** Lines 52-69. *)
Definition renderSingleQuestion (index : nat) (s : Page) : Outcome :=
  match singleQuestionContainer s, questionProgress s,
        prevQuestionBtn s, nextQuestionBtn s with
  | Some container, Some progress, Some prev, Some next =>
    if bool_decide (length (allQuestions s) = 0) then Done s
    else
      let s1 := onDocument (removeAllChildren container) s in
      let s2 := withCurrentQuestionIndex index s1 in
      match allQuestions s2 !! index with
      | None => Threw TypeError s2          (* [undefined.element] *)
      | Some questionToShow =>
        andThen
          (tryDocument
             (appendChild container (element questionToShow) (document s2)) s2)
          (λ s3,
             let total := length (allQuestions s3) in
             Done (onDocument
                     (λ d, setDisabled next (bool_decide (index = total - 1))
                             (setDisabled prev (bool_decide (index = 0))
                                (setTextContent progress
                                   (progressText index total) d)))
                     s3))
      end
  | _, _, _, _ => Done s
  end.

(** The body of the loop at lines 78-80. *)
Definition restoreEntry (q : QuestionRef) (s : Page) : Outcome :=
  match originalParent q with
  | None => Threw TypeError s               (* [null.insertBefore] *)
  | Some parent =>
    tryDocument
      (insertBefore parent (element q) (originalNextSibling q) (document s)) s
  end.

(** Lines 74-81. *)
Definition restoreListView (s : Page) : Outcome :=
  let s1 := match singleQuestionContainer s with
            | Some container => onDocument (removeAllChildren container) s
            | None => s
            end in
  forEach restoreEntry (allQuestions s1) s1.

(** The body of the loop at lines 33-39. *)
Definition markModeButton (newMode : Mode) (btn : node) (d : Document) : Document :=
  if bool_decide (dataMode d !! btn = Some (modeName newMode))
  then classListAdd btn "active" d
  else classListRemove btn "active" d.

(** Lines 26-46. *)
Definition switchMode (newMode : Mode) (s : Page) : Outcome :=
  if decide (currentMode s = newMode) then Done s
  else
    let s1 := withCurrentMode newMode s in
    let s2 := onDocument (withBodyViewMode (Some (modeName newMode))) s1 in
    let buttons := querySelectorAll (document s2) (isModeBtn (document s2)) in
    let s3 := onDocument (forEachNode (markModeButton newMode) buttons) s2 in
    match newMode with
    | ModeList => restoreListView s3
    | _ => renderSingleQuestion (currentQuestionIndex s3) s3
    end.

Definition isHidden (d : Document) (n : node) : bool :=
  bool_decide (getStyle d n "display" = "none")
  || bool_decide (getStyle d n "display" = "").

(** Lines 123-137. *)
Definition showExplanation (button : node) (d : Document) : Document :=
  match nextElementSibling d button with
  | Some explanation =>
    if isHidden d explanation then
      setStyle button "background" "linear-gradient(135deg, #e74c3c, #c0392b)"
        (setTextContent button "Açıklamayı Gizle"
           (setStyle explanation "animation" "fadeIn 0.5s ease-in-out"
              (setStyle explanation "display" "block" d)))
    else
      setStyle button "background" "linear-gradient(135deg, #27ae60, #229954)"
        (setTextContent button "Açıklamayı Göster"
           (setStyle explanation "display" "none" d))
  | None => d
  end.

(** Lines 139-147. *)
Definition revealExplanation (question : node) (d : Document) : Document :=
  match querySelectorIn d (isShowAnswerBtn d) question with
  | Some button =>
    match nextElementSibling d button with
    | Some explanation =>
      if isHidden d explanation then showExplanation button d else d
    | None => d
    end
  | None => d
  end.

(** Lines 86-121, with [option] the element the listener sits on. *)
Definition handleOptionClick (option : node) (d : Document) : Document :=
  match closest d (isQuestion d) option with
  | None => d
  | Some question =>
    if isAnswered d question || hasClass d option "user-incorrect" then d
    else
      let isCorrect := hasClass d option "correct" in
      let attempts := S (getAttempts d question) in
      let d1 := setAttempts question attempts d in
      if isCorrect then
        let d2 := classListAdd option "user-correct" d1 in
        let d3 := setAnswered question true d2 in
        let d4 := forEachNode setDisabledAttr
                    (querySelectorAllIn d3 (isOption d3) question) d3 in
        revealExplanation question d4
      else
        let d2 := classListAdd option "user-incorrect" d1 in
        let d3 := setDisabledAttr option d2 in
        if bool_decide (2 ≤ attempts) then
          let d4 := setAnswered question true d3 in
          let d5 := match querySelectorIn d4 (isCorrectOption d4) question with
                    | Some correctOption =>
                      classListAdd correctOption "revealed-answer" d4
                    | None => d4
                    end in
          let d6 := forEachNode
                      (λ opt d, if hasDisabled d opt then d
                                else setDisabledAttr opt d)
                      (querySelectorAllIn d5 (isOption d5) question) d5 in
          revealExplanation question d6
        else d3
  end.

(** Lines 149-157. *)
Definition toggleWeek (weekNumber : string) (d : Document) : Document :=
  match getElementById d ("week-" +:+ weekNumber),
        getElementById d ("icon-" +:+ weekNumber) with
  | Some content, Some icon =>
    let d1 := classListToggle content "active" d in
    setStyle icon "transform"
      (if hasClass d1 content "active" then "rotate(180deg)" else "rotate(0deg)")
      d1
  | _, _ => d
  end.

(** Lines 159-165. *)
Definition expandAll (s : Page) : Page :=
  if decide (currentMode s = ModeList) then
    onDocument
      (λ d,
         let d1 := forEachNode (λ n, classListAdd n "active")
                     (querySelectorAll d (λ n, hasClass d n "week-content")) d in
         forEachNode (λ n, setStyle n "transform" "rotate(180deg)")
           (querySelectorAll d1 (λ n, hasClass d1 n "toggle-icon")) d1)
      s
  else s.

(** Lines 167-173. *)
Definition collapseAll (s : Page) : Page :=
  if decide (currentMode s = ModeList) then
    onDocument
      (λ d,
         let d1 := forEachNode (λ n, classListRemove n "active")
                     (querySelectorAll d (λ n, hasClass d n "week-content")) d in
         forEachNode (λ n, setStyle n "transform" "rotate(0deg)")
           (querySelectorAll d1 (λ n, hasClass d1 n "toggle-icon")) d1)
      s
  else s.

(** *** Initialisation (lines 182-295) *)

(** [.week-section:not(:has(#week-summary))] *)
Definition isCountedWeekSection (d : Document) (n : node) : bool :=
  hasClass d n "week-section"
  && negb (existsb (hasId d "week-summary") (descendants d n)).

Definition buildRegistry (d : Document) : list QuestionRef :=
  (λ q, mkQuestionRef q (parentNode d q) (nextSibling d q))
    <$> querySelectorAll d (isQuestion d).

Definition DOMContentLoaded (d : Document) : Page :=
  let container := getElementById d "single-question-container" in
  let progress := getElementById d "question-progress" in
  let prev := getElementById d "prev-question-btn" in
  let next := getElementById d "next-question-btn" in
  let fab := getElementById d "fab-controls" in
  let registry := buildRegistry d in
  let d1 := forEachNode (λ q d, setAnswered q false (setAttempts q 0 d))
              (element <$> registry) d in
  let totalQuestionsEl := getElementById d1 "total-questions" in
  let totalWeeksEl := getElementById d1 "total-weeks" in
  let d2 := match totalQuestionsEl with
            | Some e => setTextContent e (pretty (length registry)) d1
            | None => d1
            end in
  let d3 := match totalWeeksEl with
            | Some e =>
              setTextContent e
                (pretty (length (querySelectorAll d2 (isCountedWeekSection d2))))
                d2
            | None => d2
            end in
  let d4 := match getElementById d3 "week-1" with
            | Some _ => toggleWeek "1" d3
            | None => d3
            end in
  let d5 := setStyle (documentElement d4) "scrollBehavior" "smooth" d4 in
  mkPage d5 registry 0 ModeList container progress prev next fab.

(** *** Events

    One constructor per listener the script installs on the controls the
    claims are about.  (The remaining listeners -- header collapse, the
    floating menu, scroll-to-top -- only toggle a class of their own or
    scroll the window.) *)
Inductive Event :=
| ModeClick (mode : Mode)          (* a [.mode-btn] whose [data-mode] is [mode] *)
| PrevClick
| NextClick
| OptionClick (option : node)
| ShowAnswerClick (button : node)
| WeekHeaderClick (weekId : string)
| ExpandAll
| CollapseAll.

Definition dispatch (e : Event) (s : Page) : Outcome :=
  match e with
  | ModeClick mode => switchMode mode s
  | PrevClick =>
    if bool_decide (0 < currentQuestionIndex s)
    then renderSingleQuestion (currentQuestionIndex s - 1) s
    else Done s
  | NextClick =>
    if bool_decide (currentQuestionIndex s < length (allQuestions s) - 1)
    then renderSingleQuestion (currentQuestionIndex s + 1) s
    else Done s
  | OptionClick option => Done (onDocument (handleOptionClick option) s)
  | ShowAnswerClick button => Done (onDocument (showExplanation button) s)
  | WeekHeaderClick weekId =>
    if bool_decide (weekId = "") then Done s
    else Done (onDocument (toggleWeek weekId) s)
  | ExpandAll => Done (expandAll s)
  | CollapseAll => Done (collapseAll s)
  end.

(** The page after a sequence of events; an exception ends its handler only. *)
Definition run (es : list Event) (s : Page) : Page :=
  foldl (λ s e, pageOf (dispatch e s)) s es.

(** ** Vocabulary of the statements *)

(** The guard at line 90: the click is taken into account. *)
Definition accepted (d : Document) (option question : node) : bool :=
  bool_decide (closest d (isQuestion d) option = Some question)
  && negb (isAnswered d question || hasClass d option "user-incorrect").

(** The two data attributes the click handler keeps per question. *)
Definition answerData (s : Page) : gmap node nat * gmap node bool :=
  (dataAttempts (document s), dataAnswered (document s)).


(** The per-question state machine of the specification, read off the two
    data attributes. *)
Inductive AnswerState := Unanswered | OneWrongAttempt | Resolved.

Definition answerState (d : Document) (q : node) : AnswerState :=
  if isAnswered d q then Resolved
  else if bool_decide (getAttempts d q = 0) then Unanswered
       else OneWrongAttempt.

Definition stage (a : AnswerState) : nat :=
  match a with
  | Unanswered => 0
  | OneWrongAttempt => 1
  | Resolved => 2
  end.

(** What the user submitted on question [q] during [es], counted apart from
    the handler: the wrong submissions and the correct ones among the
    accepted clicks. *)
Fixpoint submissions (q : node) (es : list Event) (s : Page) : nat * nat :=
  match es with
  | [] => (0, 0)
  | e :: es' =>
    let '(wrong, correct) := submissions q es' (pageOf (dispatch e s)) in
    match e with
    | OptionClick o =>
      if accepted (document s) o q then
        if hasClass (document s) o "correct" then (wrong, S correct)
        else (S wrong, correct)
      else (wrong, correct)
    | _ => (wrong, correct)
    end
  end.

Definition wrongSubmissions (q : node) (es : list Event) (s : Page) : nat :=
  (submissions q es s).1.

Definition correctSubmissions (q : node) (es : list Event) (s : Page) : nat :=
  (submissions q es s).2.

(** ** Sample documents

    [quizDocument]: one week section with two questions separated by
    whitespace text nodes, the display surface and its controls.

<<
    0 body
    |- 20 21 22   mode buttons (single, list, exam)
    |- 1  .week-section
    |  `- 2  #week-1 .week-content
    |     |- 30 text
    |     |- 3  .question: 10 .option.correct, 11 .option, 12 .option,
    |     |                13 .show-answer-btn, 14 explanation
    |     |- 31 text
    |     |- 4  .question: 15 .option, 16 .option.correct
    |     `- 32 text
    |- 5  #single-question-container
    |- 6  #question-progress
    |- 7  #prev-question-btn
    `- 8  #next-question-btn
>> *)
Definition quizDocument : Document :=
  mkDocument 0 40
    (list_to_map [(0, [20; 21; 22; 1; 5; 6; 7; 8]); (1, [2]);
                  (2, [30; 3; 31; 4; 32]);
                  (3, [10; 11; 12; 13; 14]); (4, [15; 16])])
    (list_to_set ([0; 1; 2; 3; 4; 5; 6; 7; 8] ++ seq 10 7 ++ [20; 21; 22]))
    (list_to_map [(2, "week-1"); (5, "single-question-container");
                  (6, "question-progress"); (7, "prev-question-btn");
                  (8, "next-question-btn")])
    (list_to_map [(1, {["week-section"]}); (2, {["week-content"]});
                  (3, {["question"]}); (4, {["question"]});
                  (10, {["option"; "correct"]}); (11, {["option"]});
                  (12, {["option"]}); (13, {["show-answer-btn"]});
                  (15, {["option"]}); (16, {["option"; "correct"]});
                  (20, {["mode-btn"]}); (21, {["mode-btn"; "active"]});
                  (22, {["mode-btn"]})])
    (list_to_map [(20, "single"); (21, "list"); (22, "exam")])
    ∅ ∅ ∅ ∅ ∅ None.

(** [adjacentDocument]: the same page written without whitespace between
    the two questions, so that the first question's next sibling is the
    second question. *)
Definition adjacentDocument : Document :=
  mkDocument 0 40
    (list_to_map [(0, [20; 21; 22; 1; 5; 6; 7; 8]); (1, [2]);
                  (2, [3; 4]);
                  (3, [10; 11; 12; 13; 14]); (4, [15; 16])])
    (elementNodes quizDocument) (idAttr quizDocument) (classList quizDocument)
    (dataMode quizDocument) ∅ ∅ ∅ ∅ ∅ None.

(** [surfaceDocument]: a page whose only question (9, with options 10 and
    11) sits inside the display surface 5, between two text nodes. *)
Definition surfaceDocument : Document :=
  mkDocument 0 40
    (list_to_map [(0, [20; 21; 22; 5; 6; 7; 8]); (5, [30; 9; 31]);
                  (9, [10; 11])])
    (list_to_set [0; 5; 6; 7; 8; 9; 10; 11; 20; 21; 22])
    (idAttr quizDocument)
    (list_to_map [(9, {["question"]});
                  (10, {["option"; "correct"]}); (11, {["option"]});
                  (20, {["mode-btn"]}); (21, {["mode-btn"; "active"]});
                  (22, {["mode-btn"]})])
    (dataMode quizDocument) ∅ ∅ ∅ ∅ ∅ None.

(** [emptyDocument]: the controls without any question. *)
Definition emptyDocument : Document :=
  mkDocument 0 40
    (list_to_map [(0, [20; 21; 22; 5; 6; 7; 8])])
    (elementNodes quizDocument) (idAttr quizDocument) (classList quizDocument)
    (dataMode quizDocument) ∅ ∅ ∅ ∅ ∅ None.

(** What the script fixes at load time and never assigns again: the
    registry and the cached elements. *)
Definition loaded (s : Page) :=
  (allQuestions s, singleQuestionContainer s, questionProgress s,
   prevQuestionBtn s, nextQuestionBtn s, fabControls s).

(** The invariant on the current index. *)
Definition indexInRange (s : Page) : Prop :=
  (allQuestions s ≠ [] → currentQuestionIndex s < length (allQuestions s))
  ∧ (allQuestions s = [] → currentQuestionIndex s = 0).

(** ** Well-formed documents

    The child lists describe a forest: no node occurs twice in a child
    list or under two parents, and nodes can be ranked so that every child
    ranks above its parent and below [bound].  The last condition makes
    the forest acyclic and no deeper than [bound] levels. *)
Definition TreeOK (bound : nat) (t : gmap node (list node)) : Prop :=
  (∀ p, NoDup (kidsOf t p))
  ∧ (∀ p p' c, c ∈ kidsOf t p → c ∈ kidsOf t p' → p = p')
  ∧ (∃ rank : node → nat,
        ∀ p c, c ∈ kidsOf t p → rank p < rank c ∧ rank c < bound).

(** A parsed document is such a forest, and [nodeCount] is at least the
    number of its nodes (the root and the nodes of the child lists).  The
    script creates no node, so however it moves subtrees around, no branch
    is ever longer than [nodeCount]: the walks of [subtree] and
    [closestFrom] see all there is. *)
Definition wellFormed (d : Document) : Prop :=
  TreeOK (nodeCount d) (childNodes d)
  ∧ length (map_to_list (childNodes d) ≫= snd) < nodeCount d.

(** A sufficient check that can be run: nodes numbered top-down. *)
Definition treeCheck (d : Document) : bool :=
  bool_decide (NoDup (map_to_list (childNodes d) ≫= snd))
  && forallb (λ pl : node * list node,
                forallb (λ c, bool_decide (pl.1 < c ∧ c < nodeCount d)) pl.2)
       (map_to_list (childNodes d))
  && bool_decide (length (map_to_list (childNodes d) ≫= snd) < nodeCount d).

(** The elements whose content the script replaces wholesale: the display
    surface ([innerHTML = '']) and the three text readouts
    ([textContent = ...]). *)
Definition sinks (d : Document) : list node :=
  omap (getElementById d)
    ["single-question-container"; "question-progress";
     "total-questions"; "total-weeks"].

(** No question element lies inside one of them. *)
Definition questionFreeSinks (d : Document) : bool :=
  forallb (λ v, forallb (λ x, negb (isQuestion d x)) (descendants d v))
    (sinks d).

(** A registry entry describes where its element currently is: under the
    recorded parent, right before the recorded sibling (or last). *)
Definition inPlace (d : Document) (e : QuestionRef) : Prop :=
  ∃ p l1 l2, originalParent e = Some p
             ∧ kids d p = l1 ++ element e :: l2
             ∧ originalNextSibling e = head l2.

(** The question elements of the document, in document order. *)
Definition questionsInDocument (d : Document) : list node :=
  querySelectorAll d (isQuestion d).

(** How a tree [t] relates to the tree [T] the registry was built from,
    given the sinks [V]: outside the sinks the child lists are those of
    [T], except that the element [pending] (if any) has been taken out; a
    sink is empty or as in [T]. *)
Definition Settled (T t : gmap node (list node)) (V : list node)
  (pending : option node) : Prop :=
  (∀ n, n ∉ V →
        kidsOf t n = match pending with
                     | Some q => without q (kidsOf T n)
                     | None => kidsOf T n
                     end)
  ∧ (∀ v, v ∈ V → kidsOf t v = [] ∨ kidsOf t v = kidsOf T v).

(** What the registry says of an entry, read in [T]: its element sits under
    the recorded parent, which is no sink, right before the recorded
    sibling. *)
Definition Recorded (T : gmap node (list node)) (V : list node)
  (e : QuestionRef) : Prop :=
  ∃ p l1 l2, originalParent e = Some p ∧ (p ∉ V)
             ∧ kidsOf T p = l1 ++ element e :: l2
             ∧ originalNextSibling e = head l2.

(** The parts of the document no tree operation touches. *)
Definition statics (s : Page) : nat * node * gmap node (gset string) :=
  (nodeCount (document s), documentElement (document s), classList (document s)).

(** No question element was parsed below [n]. *)
Definition questionFree (d : Document) (n : node) : bool :=
  forallb (λ x, negb (isQuestion d x)) (descendants d n).

(** The tree of the page [s] is the one parsed in [d], up to elements the
    script has emptied and that held no question: every node has the child
    list it was parsed with, or has none left while no question was parsed
    below it. *)
Definition treeAsParsed (d : Document) (s : Page) : Prop :=
  ∀ n, kids (document s) n = kids d n
       ∨ (kids (document s) n = [] ∧ questionFree d n = true).

(** The same as a check that can be run: only the nodes that have a child
    list in one of the two trees need to be looked at. *)
Definition treeAsParsedCheck (d : Document) (s : Page) : bool :=
  forallb (λ n, bool_decide (kids (document s) n = kids d n)
                || (bool_decide (kids (document s) n = [])
                    && questionFree d n))
    ((map_to_list (childNodes d)).*1
     ++ (map_to_list (childNodes (document s))).*1).

(** Two documents with the same node count and root in which the same
    elements are questions: no handler changes any of these. *)
Definition sameQuestions (d' d : Document) : Prop :=
  nodeCount d' = nodeCount d ∧ documentElement d' = documentElement d
  ∧ ∀ x, isQuestion d' x = isQuestion d x.
(** * Properties *)

(** ** Attribute reads after attribute writes *)

Lemma forEachNode_preserves {A} (proj : Document → A) f l d :
  (∀ x d, proj (f x d) = proj d) → proj (forEachNode f l d) = proj d.
Proof.
  intros Hf. revert d. induction l as [|x l IH]; intros d; simpl; [done|].
  by rewrite IH, Hf.
Qed.

Lemma hasClass_classListAdd n c d n' c' :
  hasClass (classListAdd n c d) n' c'
  = hasClass d n' c' || (bool_decide (n' = n) && bool_decide (c' = c)).
Proof.
  unfold hasClass, classListAdd, classesOf. simpl.
  destruct (decide (n' = n)) as [->|Hn].
  - rewrite lookup_insert_eq. simpl.
    rewrite (bool_decide_eq_true_2 (n = n)) by done.
    simpl. apply eq_true_iff_eq.
    rewrite orb_true_iff, !bool_decide_eq_true. set_solver.
  - rewrite lookup_insert_ne by done.
    rewrite (bool_decide_eq_false_2 (n' = n)) by done. simpl.
    by rewrite orb_false_r.
Qed.

Lemma hasClass_classListRemove n c d n' c' :
  hasClass (classListRemove n c d) n' c'
  = hasClass d n' c' && negb (bool_decide (n' = n) && bool_decide (c' = c)).
Proof.
  unfold hasClass, classListRemove, classesOf. simpl.
  destruct (decide (n' = n)) as [->|Hn].
  - rewrite lookup_insert_eq. simpl.
    rewrite (bool_decide_eq_true_2 (n = n)) by done.
    simpl. apply eq_true_iff_eq.
    rewrite andb_true_iff, negb_true_iff, bool_decide_eq_false,
      !bool_decide_eq_true. set_solver.
  - rewrite lookup_insert_ne by done.
    rewrite (bool_decide_eq_false_2 (n' = n)) by done. simpl.
    by rewrite andb_true_r.
Qed.

Lemma getAttempts_setAttempts q a d q' :
  getAttempts (setAttempts q a d) q' = if decide (q' = q) then a else getAttempts d q'.
Proof.
  unfold getAttempts, setAttempts. simpl. case_decide as Hq.
  - subst. by rewrite lookup_insert_eq.
  - by rewrite lookup_insert_ne.
Qed.

Lemma isAnswered_setAnswered q b d q' :
  isAnswered (setAnswered q b d) q'
  = if decide (q' = q) then b else isAnswered d q'.
Proof.
  unfold isAnswered, setAnswered. simpl. case_decide as Hq.
  - subst. rewrite lookup_insert_eq. by destruct b.
  - by rewrite lookup_insert_ne.
Qed.

Lemma hasDisabled_setDisabledAttr n d n' :
  hasDisabled (setDisabledAttr n d) n' = bool_decide (n' = n) || hasDisabled d n'.
Proof.
  unfold hasDisabled, setDisabledAttr. simpl. apply eq_true_iff_eq.
  rewrite orb_true_iff, !bool_decide_eq_true. set_solver.
Qed.

Lemma hasDisabled_setDisabled n b d n' :
  hasDisabled (setDisabled n b d) n'
  = if decide (n' = n) then b else hasDisabled d n'.
Proof.
  unfold setDisabled. destruct b.
  - rewrite hasDisabled_setDisabledAttr. case_decide.
    + by rewrite bool_decide_eq_true_2.
    + by rewrite bool_decide_eq_false_2.
  - unfold hasDisabled. simpl. case_decide as Hn.
    + subst. apply bool_decide_eq_false. set_solver.
    + apply bool_decide_ext. set_solver.
Qed.

Lemma getStyle_setStyle n p v d n' p' :
  getStyle (setStyle n p v d) n' p'
  = if decide ((n', p') = (n, p)) then v else getStyle d n' p'.
Proof.
  unfold getStyle, setStyle. simpl. case_decide as Hq.
  - rewrite Hq. by rewrite lookup_insert_eq.
  - by rewrite lookup_insert_ne.
Qed.

Lemma getStyle_setTextContent n t d n' p :
  getStyle (setTextContent n t d) n' p = getStyle d n' p.
Proof. done. Qed.

(** Which fields the explanation toggle leaves alone. *)
Lemma showExplanation_frame button d :
  let d' := showExplanation button d in
  dataAttempts d' = dataAttempts d ∧ dataAnswered d' = dataAnswered d
  ∧ classList d' = classList d ∧ disabledAttr d' = disabledAttr d
  ∧ nodeCount d' = nodeCount d ∧ documentElement d' = documentElement d
  ∧ dataMode d' = dataMode d ∧ idAttr d' = idAttr d
  ∧ bodyViewMode d' = bodyViewMode d ∧ elementNodes d' = elementNodes d.
Proof.
  unfold showExplanation. simpl.
  destruct (nextElementSibling d button); [|done].
  by destruct (isHidden d n).
Qed.

Lemma revealExplanation_frame question d :
  let d' := revealExplanation question d in
  dataAttempts d' = dataAttempts d ∧ dataAnswered d' = dataAnswered d
  ∧ classList d' = classList d ∧ disabledAttr d' = disabledAttr d
  ∧ nodeCount d' = nodeCount d ∧ documentElement d' = documentElement d
  ∧ dataMode d' = dataMode d ∧ idAttr d' = idAttr d
  ∧ bodyViewMode d' = bodyViewMode d ∧ elementNodes d' = elementNodes d.
Proof.
  unfold revealExplanation. simpl.
  destruct (querySelectorIn d (isShowAnswerBtn d) question) as [b|]; [|done].
  destruct (nextElementSibling d b) as [e|]; [|done].
  destruct (isHidden d e); [|done]. apply showExplanation_frame.
Qed.

(** ** The option-click handler *)

Lemma handleOptionClick_dataAttempts option d :
  dataAttempts (handleOptionClick option d)
  = match closest d (isQuestion d) option with
    | Some q => if accepted d option q
                then <[q := S (getAttempts d q)]> (dataAttempts d)
                else dataAttempts d
    | None => dataAttempts d
    end.
Proof.
  unfold handleOptionClick, accepted.
  destruct (closest d (isQuestion d) option) as [q|]; [|done].
  rewrite (bool_decide_eq_true_2 (Some q = Some q)) by done. simpl.
  destruct (isAnswered d q || hasClass d option "user-incorrect"); [done|].
  simpl. destruct (hasClass d option "correct").
  - rewrite (proj1 (revealExplanation_frame _ _)).
    by rewrite (forEachNode_preserves dataAttempts).
  - case_bool_decide; [|done].
    rewrite (proj1 (revealExplanation_frame _ _)).
    rewrite (forEachNode_preserves dataAttempts).
    + by destruct (querySelectorIn _ _ _).
    + intros x d0. by destruct (hasDisabled d0 x).
Qed.

Lemma handleOptionClick_attempts option d q :
  getAttempts (handleOptionClick option d) q
  = if accepted d option q then S (getAttempts d q) else getAttempts d q.
Proof.
  unfold getAttempts at 1. rewrite handleOptionClick_dataAttempts.
  destruct (closest d (isQuestion d) option) as [q'|] eqn:Hc.
  - destruct (accepted d option q') eqn:Hacc.
    + destruct (decide (q = q')) as [->|Hq].
      * rewrite Hacc, lookup_insert_eq. done.
      * rewrite lookup_insert_ne by done.
        unfold accepted. rewrite Hc.
        rewrite bool_decide_eq_false_2 by congruence. done.
    + destruct (accepted d option q) eqn:Hacc'; [|done].
      unfold accepted in Hacc, Hacc'. rewrite Hc in *.
      apply andb_true_iff in Hacc' as [Hq%bool_decide_eq_true ?].
      simplify_eq. rewrite bool_decide_eq_true_2 in Hacc by done.
      simpl in Hacc. congruence.
  - unfold accepted. rewrite Hc. by rewrite bool_decide_eq_false_2.
Qed.

(** The handler writes [answered] only to set it. *)
Lemma handleOptionClick_answered_mono option d q :
  isAnswered d q = true → isAnswered (handleOptionClick option d) q = true.
Proof.
  intros Hq. unfold handleOptionClick.
  destruct (closest d (isQuestion d) option) as [q'|]; [|done].
  destruct (isAnswered d q' || hasClass d option "user-incorrect"); [done|].
  assert (Hset : ∀ d0, dataAnswered d0 = <[q' := true]> (dataAnswered d) →
                       isAnswered d0 q = true).
  { intros d0 H0. unfold isAnswered in *. rewrite H0.
    apply bool_decide_eq_true. apply bool_decide_eq_true in Hq.
    destruct (decide (q = q')) as [->|]; [by rewrite lookup_insert_eq|].
    by rewrite lookup_insert_ne. }
  destruct (hasClass d option "correct").
  - apply Hset.
    rewrite (proj1 (proj2 (revealExplanation_frame _ _))).
    by rewrite (forEachNode_preserves dataAnswered).
  - case_bool_decide.
    + apply Hset.
      rewrite (proj1 (proj2 (revealExplanation_frame _ _))).
      rewrite (forEachNode_preserves dataAnswered).
      * by destruct (querySelectorIn _ _ _).
      * intros x d0. by destruct (hasDisabled d0 x).
    + done.
Qed.

(** An accepted click resolves the question when it is correct or when it
    is the second attempt. *)
Lemma handleOptionClick_resolves option d q :
  accepted d option q = true →
  hasClass d option "correct" = true ∨ 1 ≤ getAttempts d q →
  isAnswered (handleOptionClick option d) q = true.
Proof.
  intros Hacc Hres. unfold accepted in Hacc.
  apply andb_true_iff in Hacc as [Hc%bool_decide_eq_true Hg].
  apply negb_true_iff in Hg.
  unfold handleOptionClick. rewrite Hc, Hg.
  assert (Hset : ∀ d0, dataAnswered d0 = <[q := true]> (dataAnswered d) →
                       isAnswered d0 q = true).
  { intros d0 H0. unfold isAnswered. rewrite H0, lookup_insert_eq.
    by apply bool_decide_eq_true. }
  destruct (hasClass d option "correct") eqn:Hcorrect.
  - apply Hset.
    rewrite (proj1 (proj2 (revealExplanation_frame _ _))).
    by rewrite (forEachNode_preserves dataAnswered).
  - destruct Hres as [?|Hatt]; [done|].
    rewrite bool_decide_eq_true_2 by lia.
    apply Hset.
    rewrite (proj1 (proj2 (revealExplanation_frame _ _))).
    rewrite (forEachNode_preserves dataAnswered).
    + by destruct (querySelectorIn _ _ _).
    + intros x d0. by destruct (hasDisabled d0 x).
Qed.

(** *** Answer data under the other handlers *)

Lemma insertBefore_inr parent n ref d d' :
  insertBefore parent n ref d = inr d' → ∃ t, d' = withChildNodes t d.
Proof.
  unfold insertBefore. intros H. repeat case_match; simplify_eq; eauto.
Qed.

Lemma forEach_proj {A B} (proj : Page → B) (f : A → Page → Outcome) xs s :
  (∀ x s, proj (pageOf (f x s)) = proj s) →
  proj (pageOf (forEach f xs s)) = proj s.
Proof.
  intros Hf. revert s. induction xs as [|x xs IH]; intros s; simpl; [done|].
  specialize (Hf x s). destruct (f x s) as [s1|e s1]; simpl in *.
  - by rewrite IH.
  - done.
Qed.

Lemma restoreEntry_answerData q s :
  answerData (pageOf (restoreEntry q s)) = answerData s.
Proof.
  unfold restoreEntry. destruct (originalParent q) as [p|]; [|done].
  destruct (insertBefore _ _ _ _) as [e|d'] eqn:Hi; [done|].
  apply insertBefore_inr in Hi as [t ->]. done.
Qed.

Lemma restoreListView_answerData s :
  answerData (pageOf (restoreListView s)) = answerData s.
Proof.
  unfold restoreListView. rewrite forEach_proj.
  - by destruct (singleQuestionContainer s).
  - apply restoreEntry_answerData.
Qed.

Lemma renderSingleQuestion_answerData i s :
  answerData (pageOf (renderSingleQuestion i s)) = answerData s.
Proof.
  unfold renderSingleQuestion.
  destruct (singleQuestionContainer s) as [c|]; [|done].
  destruct (questionProgress s) as [pr|]; [|done].
  destruct (prevQuestionBtn s) as [pv|]; [|done].
  destruct (nextQuestionBtn s) as [nx|]; [|done].
  case_bool_decide; [done|]. simpl.
  destruct (allQuestions s !! i) as [q|]; [|done].
  unfold appendChild.
  destruct (insertBefore _ _ _ _) as [e|d'] eqn:Hi; [done|].
  apply insertBefore_inr in Hi as [t ->]. simpl. unfold answerData. simpl.
  unfold setDisabled. by repeat case_match.
Qed.

Lemma switchMode_answerData m s :
  answerData (pageOf (switchMode m s)) = answerData s.
Proof.
  unfold switchMode. case_decide; [done|].
  assert (Hb : ∀ l d, dataAttempts (forEachNode (markModeButton m) l d)
                      = dataAttempts d
                      ∧ dataAnswered (forEachNode (markModeButton m) l d)
                        = dataAnswered d).
  { intros l d. split.
    - apply (forEachNode_preserves dataAttempts). intros x d0.
      unfold markModeButton. by case_bool_decide.
    - apply (forEachNode_preserves dataAnswered). intros x d0.
      unfold markModeButton. by case_bool_decide. }
  destruct m; [rewrite restoreListView_answerData
              | rewrite renderSingleQuestion_answerData ..];
    unfold answerData; simpl; f_equal;
    [by rewrite (proj1 (Hb _ _)) | by rewrite (proj2 (Hb _ _))
    | by rewrite (proj1 (Hb _ _)) | by rewrite (proj2 (Hb _ _))
    | by rewrite (proj1 (Hb _ _)) | by rewrite (proj2 (Hb _ _))].
Qed.

Lemma dispatch_answerData e s :
  (∀ o, e ≠ OptionClick o) →
  answerData (pageOf (dispatch e s)) = answerData s.
Proof.
  intros He. destruct e; simpl.
  - apply switchMode_answerData.
  - case_bool_decide; [apply renderSingleQuestion_answerData|done].
  - case_bool_decide; [apply renderSingleQuestion_answerData|done].
  - by destruct (He option).
  - unfold answerData. simpl.
    destruct (showExplanation_frame button (document s)) as (-> & -> & _). done.
  - case_bool_decide; [done|]. unfold answerData, toggleWeek. simpl.
    destruct (getElementById _ ("week-" +:+ weekId)) as [c|]; [|done].
    destruct (getElementById _ ("icon-" +:+ weekId)) as [i|]; [|done].
    simpl. unfold classListToggle. by destruct (hasClass _ c "active").
  - unfold expandAll. case_decide; [|done]. unfold answerData. simpl. f_equal.
    + rewrite (forEachNode_preserves dataAttempts) by done.
      by rewrite (forEachNode_preserves dataAttempts).
    + rewrite (forEachNode_preserves dataAnswered) by done.
      by rewrite (forEachNode_preserves dataAnswered).
  - unfold collapseAll. case_decide; [|done]. unfold answerData. simpl. f_equal.
    + rewrite (forEachNode_preserves dataAttempts) by done.
      by rewrite (forEachNode_preserves dataAttempts).
    + rewrite (forEachNode_preserves dataAnswered) by done.
      by rewrite (forEachNode_preserves dataAnswered).
Qed.

Lemma answerData_attempts s s' q :
  answerData s' = answerData s →
  getAttempts (document s') q = getAttempts (document s) q.
Proof. unfold answerData, getAttempts. intros [= -> _]. done. Qed.

Lemma answerData_answered s s' q :
  answerData s' = answerData s →
  isAnswered (document s') q = isAnswered (document s) q.
Proof. unfold answerData, isAnswered. intros [= _ ->]. done. Qed.

(** One event never lowers [attempts] and never clears [answered]. *)
Lemma dispatch_answer_mono e s q :
  getAttempts (document s) q ≤ getAttempts (document (pageOf (dispatch e s))) q
  ∧ (isAnswered (document s) q = true →
     isAnswered (document (pageOf (dispatch e s))) q = true).
Proof.
  assert (Hcase : (∃ o, e = OptionClick o) ∨ (∀ o, e ≠ OptionClick o))
    by (destruct e; eauto).
  destruct Hcase as [[o ->]|Hne].
  - simpl. rewrite handleOptionClick_attempts. split.
    + case_match; lia.
    + apply handleOptionClick_answered_mono.
  - pose proof (dispatch_answerData e s Hne) as Hd.
    rewrite (answerData_attempts _ _ _ Hd), (answerData_answered _ _ _ Hd).
    done.
Qed.

Lemma run_cons e es s : run (e :: es) s = run es (pageOf (dispatch e s)).
Proof. done. Qed.

Lemma run_app es es' s : run (es ++ es') s = run es' (run es s).
Proof. unfold run. apply foldl_app. Qed.

Lemma run_answer_mono es s q :
  getAttempts (document s) q ≤ getAttempts (document (run es s)) q
  ∧ (isAnswered (document s) q = true →
     isAnswered (document (run es s)) q = true).
Proof.
  revert s. induction es as [|e es IH]; intros s; [done|].
  rewrite run_cons.
  destruct (dispatch_answer_mono e s q) as [H1 H2].
  destruct (IH (pageOf (dispatch e s))) as [H3 H4].
  split; [lia|auto].
Qed.

(** ** C8: clicks on a resolved question, or on a spent wrong option *)

(** C8.  When the clicked option belongs to a question that is already
    answered, or when the option itself is already marked user-incorrect,
    the click handler returns the page exactly as it was: attempts,
    answered, every class and [disabled] attribute and the explanation's
    visibility are all unchanged. *)
Theorem handleOptionClick_ignores_click (s : Page) (option : node) :
  (∃ question,
      closest (document s) (isQuestion (document s)) option = Some question
      ∧ isAnswered (document s) question = true)
  ∨ hasClass (document s) option "user-incorrect" = true →
  dispatch (OptionClick option) s = Done s.
Proof.
  intros H. simpl. f_equal. destruct s as [d ? ? ? ? ? ? ? ?].
  unfold onDocument, withDocument. simpl in *. f_equal.
  unfold handleOptionClick.
  destruct (closest d (isQuestion d) option) as [q|]; [|done].
  destruct H as [(q' & Hq & Ha)|Hu].
  - injection Hq as <-. by rewrite Ha.
  - by rewrite Hu, orb_true_r.
Qed.

Lemma handleOptionClick_ignores_click_witness :
  let s := run [OptionClick 10] (DOMContentLoaded quizDocument) in
  isAnswered (document s) 3 = true
  ∧ dispatch (OptionClick 11) s = Done s
  ∧ dispatch (OptionClick 10) s = Done s.
Proof.
  split; [by vm_compute|].
  split; apply handleOptionClick_ignores_click; left; exists 3;
    split; by vm_compute.
Defined.

(** ** C4: the answer state only moves forward *)

Lemma stage_mono d d' q :
  getAttempts d q ≤ getAttempts d' q →
  (isAnswered d q = true → isAnswered d' q = true) →
  stage (answerState d q) ≤ stage (answerState d' q).
Proof.
  intros Hatt Hans. unfold answerState.
  destruct (isAnswered d' q) eqn:H'.
  - destruct (isAnswered d q); [done|]. case_bool_decide; simpl; lia.
  - destruct (isAnswered d q); [by specialize (Hans eq_refl)|].
    repeat case_bool_decide; simpl; lia.
Qed.

(** C4.  Along any sequence of events -- option clicks and all the other
    handlers alike -- a question that is answered stays answered, its
    attempts counter never decreases, and its state in the machine
    Unanswered < OneWrongAttempt < Resolved never moves backwards. *)
Theorem answer_state_monotone (es : list Event) (s : Page) (q : node) :
  (isAnswered (document s) q = true →
   isAnswered (document (run es s)) q = true)
  ∧ getAttempts (document s) q ≤ getAttempts (document (run es s)) q
  ∧ stage (answerState (document s) q)
    ≤ stage (answerState (document (run es s)) q).
Proof.
  destruct (run_answer_mono es s q) as [Hatt Hans].
  split; [done|]. split; [done|]. by apply stage_mono.
Qed.

(** ** C2: what the attempts counter counts *)

Lemma submissions_answered es s q :
  isAnswered (document s) q = true → submissions q es s = (0, 0).
Proof.
  revert s. induction es as [|e es IH]; intros s Hq; [done|]. simpl.
  rewrite IH by (by apply dispatch_answer_mono).
  destruct e; try done.
  unfold accepted. rewrite Hq. simpl. by rewrite andb_false_r.
Qed.

Lemma attempts_submissions es s q :
  getAttempts (document (run es s)) q
  = getAttempts (document s) q + wrongSubmissions q es s
    + correctSubmissions q es s
  ∧ correctSubmissions q es s ≤ 1.
Proof.
  unfold wrongSubmissions, correctSubmissions.
  revert s. induction es as [|e es IH]; intros s; [simpl; lia|].
  rewrite run_cons. simpl.
  assert (Hcase : (∃ o, e = OptionClick o) ∨ (∀ o, e ≠ OptionClick o))
    by (destruct e; eauto).
  destruct Hcase as [[o ->]|Hne].
  - destruct (accepted (document s) o q) eqn:Hacc.
    + destruct (hasClass (document s) o "correct") eqn:Hcorrect.
      * destruct (IH (pageOf (dispatch (OptionClick o) s))) as [IH1 _].
        rewrite submissions_answered in IH1 |- *.
        2,3: simpl; apply handleOptionClick_resolves; auto.
        simpl in *. rewrite IH1, handleOptionClick_attempts, Hacc. lia.
      * destruct (IH (pageOf (dispatch (OptionClick o) s))) as [IH1 IH2].
        destruct (submissions q es _) as [w c]. simpl in *.
        rewrite IH1, handleOptionClick_attempts, Hacc. lia.
    + destruct (IH (pageOf (dispatch (OptionClick o) s))) as [IH1 IH2].
      destruct (submissions q es _) as [w c]. simpl in *.
      rewrite IH1, handleOptionClick_attempts, Hacc. lia.
  - destruct (IH (pageOf (dispatch e s))) as [IH1 IH2].
    rewrite (answerData_attempts s _ q (dispatch_answerData e s Hne)) in IH1.
    destruct (submissions q es _) as [w c]. simpl in *.
    destruct e; try (split; [exact IH1 | exact IH2]).
    by destruct (Hne option).
Qed.

Lemma init_loop_answerData l d q :
  q ∈ l ∨ (getAttempts d q = 0 ∧ isAnswered d q = false) →
  let d' := forEachNode (λ q d, setAnswered q false (setAttempts q 0 d)) l d in
  getAttempts d' q = 0 ∧ isAnswered d' q = false.
Proof.
  revert d. induction l as [|x l IH]; intros d H; simpl.
  - destruct H as [H|H]; [by apply elem_of_nil in H|done].
  - apply IH. destruct (decide (q ∈ l)) as [|Hq]; [by left|right].
    unfold getAttempts, isAnswered. simpl.
    destruct (decide (q = x)) as [->|Hx].
    + rewrite !lookup_insert_eq. split; [done|].
      by apply bool_decide_eq_false.
    + rewrite !lookup_insert_ne by done.
      destruct H as [H|H]; [|done].
      apply elem_of_cons in H as [?|?]; done.
Qed.

Lemma DOMContentLoaded_answerData d :
  answerData (DOMContentLoaded d)
  = answerData
      (withDocument
         (forEachNode (λ q d, setAnswered q false (setAttempts q 0 d))
            (element <$> buildRegistry d) d)
         (DOMContentLoaded d)).
Proof.
  unfold DOMContentLoaded, answerData. simpl.
  destruct (getElementById _ "week-1").
  - unfold toggleWeek.
    destruct (getElementById _ ("week-" +:+ "1")).
    + destruct (getElementById _ ("icon-" +:+ "1")).
      * simpl. unfold classListToggle.
        destruct (hasClass _ _ "active"); simpl;
          by destruct (getElementById _ "total-weeks"),
                      (getElementById _ "total-questions").
      * by destruct (getElementById _ "total-weeks"),
                    (getElementById _ "total-questions").
    + by destruct (getElementById _ "total-weeks"),
                  (getElementById _ "total-questions").
  - by destruct (getElementById _ "total-weeks"),
               (getElementById _ "total-questions").
Qed.

Lemma DOMContentLoaded_fresh d q :
  q ∈ element <$> allQuestions (DOMContentLoaded d) →
  getAttempts (document (DOMContentLoaded d)) q = 0
  ∧ isAnswered (document (DOMContentLoaded d)) q = false.
Proof.
  intros Hq. pose proof (DOMContentLoaded_answerData d) as Hd.
  rewrite (answerData_attempts _ _ q Hd), (answerData_answered _ _ q Hd).
  simpl. apply init_loop_answerData. by left.
Qed.

(** C2 (amended).  For a question of the registry, [attempts] starts at 0
    and, after any sequence of events, equals the number of accepted
    submissions on that question, the correct one included: the wrong
    submissions plus the correct submissions, of which there is at most
    one. *)
Theorem attempts_counts_submissions (d : Document) (es : list Event) (q : node) :
  q ∈ element <$> allQuestions (DOMContentLoaded d) →
  getAttempts (document (DOMContentLoaded d)) q = 0
  ∧ getAttempts (document (run es (DOMContentLoaded d))) q
    = wrongSubmissions q es (DOMContentLoaded d)
      + correctSubmissions q es (DOMContentLoaded d)
  ∧ correctSubmissions q es (DOMContentLoaded d) ≤ 1.
Proof.
  intros Hq. destruct (DOMContentLoaded_fresh d q Hq) as [H0 _].
  destruct (attempts_submissions es (DOMContentLoaded d) q) as [H1 H2].
  split; [done|]. split; [|done]. rewrite H1, H0. lia.
Qed.

Lemma attempts_counts_submissions_witness :
  let s0 := DOMContentLoaded quizDocument in
  let es := [OptionClick 11; ModeClick ModeSingle; OptionClick 10; OptionClick 12] in
  3 ∈ element <$> allQuestions s0
  ∧ getAttempts (document s0) 3 = 0
  ∧ getAttempts (document (run es s0)) 3
    = wrongSubmissions 3 es s0 + correctSubmissions 3 es s0
  ∧ correctSubmissions 3 es s0 ≤ 1.
Proof.
  assert (H : 3 ∈ element <$> allQuestions (DOMContentLoaded quizDocument))
    by (vm_compute; apply list_elem_of_here).
  split; [exact H|].
  exact (attempts_counts_submissions quizDocument _ 3 H).
Defined.

(** C2 as stated fails: one click on the correct option of a fresh
    question makes [attempts] 1 although no wrong answer was submitted. *)
Lemma attempts_counts_correct_click :
  let s0 := DOMContentLoaded quizDocument in
  getAttempts (document s0) 3 = 0
  ∧ getAttempts (document (run [OptionClick 10] s0)) 3 = 1
  ∧ wrongSubmissions 3 [OptionClick 10] s0 = 0
  ∧ getAttempts (document (run [OptionClick 10] s0)) 3
    ≠ wrongSubmissions 3 [OptionClick 10] s0.
Proof. by vm_compute. Qed.

(** ** Tree queries depend on the tree and on the selector only *)

Lemma parentNode_ext d d' n :
  childNodes d' = childNodes d → parentNode d' n = parentNode d n.
Proof. unfold parentNode. by intros ->. Qed.

Lemma closest_ext d d' sel sel' n :
  childNodes d' = childNodes d → nodeCount d' = nodeCount d →
  (∀ x, sel' x = sel x) →
  closest d' sel' n = closest d sel n.
Proof.
  intros Ht Hn Hsel. unfold closest. rewrite Hn.
  generalize (nodeCount d). intros f. revert n.
  induction f as [|f IH]; intros n; simpl; rewrite Hsel; [done|].
  destruct (sel n); [done|]. rewrite (parentNode_ext d d') by done.
  destruct (parentNode d n); [apply IH|done].
Qed.

Lemma descendants_ext d d' n :
  childNodes d' = childNodes d → nodeCount d' = nodeCount d →
  descendants d' n = descendants d n.
Proof. unfold descendants, inclusiveDescendants. by intros -> ->. Qed.

Lemma querySelectorAllIn_ext d d' sel sel' n :
  childNodes d' = childNodes d → nodeCount d' = nodeCount d →
  (∀ x, sel' x = sel x) →
  querySelectorAllIn d' sel' n = querySelectorAllIn d sel n.
Proof.
  intros Ht Hn Hsel. unfold querySelectorAllIn.
  rewrite (descendants_ext d d') by done.
  apply list_filter_iff. intros x. by rewrite Hsel.
Qed.

Lemma querySelectorIn_ext d d' sel sel' n :
  childNodes d' = childNodes d → nodeCount d' = nodeCount d →
  (∀ x, sel' x = sel x) →
  querySelectorIn d' sel' n = querySelectorIn d sel n.
Proof.
  intros. unfold querySelectorIn. by rewrite (querySelectorAllIn_ext d d' sel).
Qed.

Lemma nextElementSibling_ext d d' n :
  childNodes d' = childNodes d → elementNodes d' = elementNodes d →
  nextElementSibling d' n = nextElementSibling d n.
Proof.
  intros Ht He. unfold nextElementSibling, kids, isElement.
  rewrite (parentNode_ext d d') by done. by rewrite Ht, He.
Qed.

Lemma hasClass_eq d d' x c :
  classList d' = classList d → hasClass d' x c = hasClass d x c.
Proof. unfold hasClass, classesOf. by intros ->. Qed.

(** Adding a class the selectors do not mention leaves them alone. *)
Lemma hasClass_add_other n c d n' c' :
  c' ≠ c → hasClass (classListAdd n c d) n' c' = hasClass d n' c'.
Proof.
  intros Hc. rewrite hasClass_classListAdd.
  rewrite (bool_decide_eq_false_2 (c' = c)) by done.
  by rewrite andb_false_r, orb_false_r.
Qed.

(** ** C5: two wrong attempts *)

Lemma disable_loop l d x :
  hasDisabled
    (forEachNode (λ opt d, if hasDisabled d opt then d else setDisabledAttr opt d)
       l d) x
  = hasDisabled d x || bool_decide (x ∈ l).
Proof.
  revert d. induction l as [|y l IH]; intros d; cbn [forEachNode].
  - rewrite bool_decide_eq_false_2; [by rewrite orb_false_r|].
    by intros ?%elem_of_nil.
  - rewrite IH. apply eq_true_iff_eq.
    rewrite !orb_true_iff, !bool_decide_eq_true, elem_of_cons.
    destruct (hasDisabled d y) eqn:Hy.
    + split; [tauto|]. intros [?|[->|?]]; auto.
    + rewrite hasDisabled_setDisabledAttr, orb_true_iff, bool_decide_eq_true.
      tauto.
Qed.

Lemma handleOptionClick_first_wrong d o q :
  accepted d o q = true → hasClass d o "correct" = false →
  getAttempts d q = 0 →
  handleOptionClick o d
  = setDisabledAttr o (classListAdd o "user-incorrect" (setAttempts q 1 d)).
Proof.
  intros Hacc Hcorrect Hatt. unfold accepted in Hacc.
  apply andb_true_iff in Hacc as [Hc%bool_decide_eq_true Hg%negb_true_iff].
  unfold handleOptionClick. rewrite Hc, Hg, Hcorrect, Hatt.
  by rewrite bool_decide_eq_false_2 by lia.
Qed.

Lemma showExplanation_shows b e d :
  nextElementSibling d b = Some e →
  isHidden d e = true → isHidden (showExplanation b d) e = false.
Proof.
  intros Hb He. unfold showExplanation. rewrite Hb, He.
  unfold isHidden. rewrite getStyle_setStyle.
  case_decide as H1; [by simplify_eq|].
  rewrite getStyle_setTextContent, getStyle_setStyle.
  case_decide as H2; [by simplify_eq|].
  rewrite getStyle_setStyle, decide_True by done. done.
Qed.

Lemma handleOptionClick_exhausts d o q :
  accepted d o q = true → hasClass d o "correct" = false →
  1 ≤ getAttempts d q →
  let d' := handleOptionClick o d in
  (∀ c, querySelectorIn d (isCorrectOption d) q = Some c →
        hasClass d' c "revealed-answer" = true)
  ∧ (∀ x, x ∈ querySelectorAllIn d (isOption d) q → hasDisabled d' x = true)
  ∧ (∀ b e, querySelectorIn d (isShowAnswerBtn d) q = Some b →
            nextElementSibling d b = Some e → isHidden d' e = false).
Proof.
  intros Hacc Hcorrect Hatt. unfold accepted in Hacc.
  apply andb_true_iff in Hacc as [Hc%bool_decide_eq_true Hg%negb_true_iff].
  unfold handleOptionClick. rewrite Hc, Hg, Hcorrect.
  rewrite bool_decide_eq_true_2 by lia.
  set (d4 := setAnswered q true _).
  assert (Ht4 : childNodes d4 = childNodes d) by done.
  assert (Hn4 : nodeCount d4 = nodeCount d) by done.
  assert (Hc4 : ∀ x c, c ≠ "user-incorrect" → hasClass d4 x c = hasClass d x c).
  { intros x c Hne.
    change (hasClass d4 x c)
      with (hasClass (classListAdd o "user-incorrect" d) x c).
    by apply hasClass_add_other. }
  set (d5 := match querySelectorIn d4 (isCorrectOption d4) q with
             | Some c => classListAdd c "revealed-answer" d4
             | None => d4
             end).
  assert (Ht5 : childNodes d5 = childNodes d)
    by (unfold d5; by destruct (querySelectorIn d4 _ q)).
  assert (Hn5 : nodeCount d5 = nodeCount d)
    by (unfold d5; by destruct (querySelectorIn d4 _ q)).
  assert (He5 : elementNodes d5 = elementNodes d)
    by (unfold d5; by destruct (querySelectorIn d4 _ q)).
  assert (Hs5 : style d5 = style d)
    by (unfold d5; by destruct (querySelectorIn d4 _ q)).
  assert (Hc5 : ∀ x c, c ≠ "user-incorrect" → c ≠ "revealed-answer" →
                       hasClass d5 x c = hasClass d x c).
  { intros x c H1 H2. unfold d5. destruct (querySelectorIn d4 _ q).
    - rewrite hasClass_add_other by done. by apply Hc4.
    - by apply Hc4. }
  set (d6 := forEachNode _ _ d5).
  assert (Hframe6 : childNodes d6 = childNodes d ∧ nodeCount d6 = nodeCount d
                    ∧ elementNodes d6 = elementNodes d ∧ style d6 = style d
                    ∧ classList d6 = classList d5).
  { unfold d6. repeat split.
    - rewrite (forEachNode_preserves childNodes); [done|].
      intros x d0. by destruct (hasDisabled d0 x).
    - rewrite (forEachNode_preserves nodeCount); [done|].
      intros x d0. by destruct (hasDisabled d0 x).
    - rewrite (forEachNode_preserves elementNodes); [done|].
      intros x d0. by destruct (hasDisabled d0 x).
    - rewrite (forEachNode_preserves style); [done|].
      intros x d0. by destruct (hasDisabled d0 x).
    - rewrite (forEachNode_preserves classList); [done|].
      intros x d0. by destruct (hasDisabled d0 x). }
  destruct Hframe6 as (Ht6 & Hn6 & He6 & Hs6 & Hc6).
  destruct (revealExplanation_frame q d6)
    as (_ & _ & Hrc & Hrd & _).
  split; [|split].
  - intros c Hq. rewrite (hasClass_eq d6) by done.
    rewrite (hasClass_eq d5) by done. unfold d5.
    rewrite (querySelectorIn_ext d d4 (isCorrectOption d)), Hq; try done.
    + rewrite hasClass_classListAdd.
      rewrite !bool_decide_eq_true_2 by done. by rewrite orb_true_r.
    + intros x. unfold isCorrectOption. by rewrite !Hc4.
  - intros x Hx. unfold hasDisabled. rewrite Hrd.
    fold (hasDisabled d6 x). unfold d6. rewrite disable_loop.
    rewrite (querySelectorAllIn_ext d d5 (isOption d)); try done.
    + rewrite (bool_decide_eq_true_2 _ Hx). by rewrite orb_true_r.
    + intros y. unfold isOption. by rewrite Hc5.
  - intros b e Hb He. unfold revealExplanation.
    rewrite (querySelectorIn_ext d d6 (isShowAnswerBtn d)), Hb; try done.
    + rewrite (nextElementSibling_ext d d6) by done. rewrite He.
      destruct (isHidden d6 e) eqn:Hh; [|done].
      apply showExplanation_shows; [|done].
      by rewrite (nextElementSibling_ext d d6).
    + intros y. unfold isShowAnswerBtn. rewrite (hasClass_eq d5) by done.
      by apply Hc5.
Qed.

(** C5.  On a question with attempts = 0 and answered = false, a click on
    a wrong option gives attempts = 1, disables that option, leaves the
    question unanswered and touches neither the inline styles (so the
    explanation is not forced open) nor the tree; a click on another wrong
    option then gives attempts = 2 and answered = true, flags the correct
    option (the first [.option.correct] of the question) as revealed,
    disables every option of the question and leaves the explanation
    shown. *)
Theorem two_wrong_attempts (d : Document) (question o1 o2 : node) :
  closest d (isQuestion d) o1 = Some question →
  closest d (isQuestion d) o2 = Some question →
  getAttempts d question = 0 → isAnswered d question = false →
  hasClass d o1 "correct" = false → hasClass d o2 "correct" = false →
  hasClass d o1 "user-incorrect" = false →
  hasClass d o2 "user-incorrect" = false →
  o1 ≠ o2 →
  let d1 := handleOptionClick o1 d in
  let d2 := handleOptionClick o2 d1 in
  (getAttempts d1 question = 1 ∧ hasDisabled d1 o1 = true
   ∧ isAnswered d1 question = false
   ∧ style d1 = style d ∧ childNodes d1 = childNodes d)
  ∧ (getAttempts d2 question = 2 ∧ isAnswered d2 question = true
     ∧ (∀ c, querySelectorIn d (isCorrectOption d) question = Some c →
             hasClass d2 c "revealed-answer" = true)
     ∧ (∀ x, x ∈ querySelectorAllIn d (isOption d) question →
             hasDisabled d2 x = true)
     ∧ (∀ b e, querySelectorIn d (isShowAnswerBtn d) question = Some b →
               nextElementSibling d b = Some e → isHidden d2 e = false)).
Proof.
  intros Hc1 Hc2 Hatt Hans Hw1 Hw2 Hu1 Hu2 Hne d1 d2.
  assert (Hacc1 : accepted d o1 question = true).
  { unfold accepted. rewrite Hc1, Hans, Hu1.
    by rewrite bool_decide_eq_true_2. }
  assert (Hd1 : d1 = setDisabledAttr o1
                       (classListAdd o1 "user-incorrect"
                          (setAttempts question 1 d)))
    by (by apply handleOptionClick_first_wrong).
  assert (Hatt1 : getAttempts d1 question = 1).
  { unfold d1. rewrite handleOptionClick_attempts, Hacc1. lia. }
  assert (Ht1 : childNodes d1 = childNodes d) by (by rewrite Hd1).
  assert (Hn1 : nodeCount d1 = nodeCount d) by (by rewrite Hd1).
  assert (He1 : elementNodes d1 = elementNodes d) by (by rewrite Hd1).
  assert (Hans1 : isAnswered d1 question = false) by (by rewrite Hd1).
  assert (Hcl1 : ∀ x c, c ≠ "user-incorrect" → hasClass d1 x c = hasClass d x c).
  { intros x c Hc. rewrite Hd1.
    change (hasClass (classListAdd o1 "user-incorrect" d) x c = hasClass d x c).
    by apply hasClass_add_other. }
  split.
  { split; [done|]. split.
    { rewrite Hd1, hasDisabled_setDisabledAttr.
      by rewrite bool_decide_eq_true_2. }
    split; [done|]. by rewrite Hd1. }
  assert (Hacc2 : accepted d1 o2 question = true).
  { unfold accepted.
    rewrite (closest_ext d d1 (isQuestion d)), Hc2, Hans1; try done.
    - rewrite bool_decide_eq_true_2 by done. rewrite Hd1.
      change (negb (false || hasClass (classListAdd o1 "user-incorrect" d)
                                 o2 "user-incorrect") = true).
      rewrite hasClass_classListAdd, Hu2.
      by rewrite (bool_decide_eq_false_2 (o2 = o1)).
    - intros x. unfold isQuestion. by apply Hcl1. }
  assert (Hw2' : hasClass d1 o2 "correct" = false) by (by rewrite Hcl1).
  split.
  { unfold d2. rewrite handleOptionClick_attempts, Hacc2. lia. }
  split.
  { apply handleOptionClick_resolves; [done|]. right. lia. }
  destruct (handleOptionClick_exhausts d1 o2 question Hacc2 Hw2')
    as (Hrev & Hdis & Hexp); [lia|].
  split; [|split].
  - intros c Hq. apply Hrev.
    rewrite (querySelectorIn_ext d d1 (isCorrectOption d)); try done.
    intros x. unfold isCorrectOption. by rewrite !Hcl1.
  - intros x Hx. apply Hdis.
    rewrite (querySelectorAllIn_ext d d1 (isOption d)); try done.
    intros y. unfold isOption. by rewrite Hcl1.
  - intros b e Hb He. apply (Hexp b).
    + rewrite (querySelectorIn_ext d d1 (isShowAnswerBtn d)); try done.
      intros y. unfold isShowAnswerBtn. by rewrite Hcl1.
    + by rewrite (nextElementSibling_ext d d1).
Qed.

Lemma two_wrong_attempts_witness :
  let d := document (DOMContentLoaded quizDocument) in
  let d1 := handleOptionClick 11 d in
  let d2 := handleOptionClick 12 d1 in
  (getAttempts d1 3 = 1 ∧ hasDisabled d1 11 = true
   ∧ isAnswered d1 3 = false
   ∧ style d1 = style d ∧ childNodes d1 = childNodes d)
  ∧ (getAttempts d2 3 = 2 ∧ isAnswered d2 3 = true
     ∧ (∀ c, querySelectorIn d (isCorrectOption d) 3 = Some c →
             hasClass d2 c "revealed-answer" = true)
     ∧ (∀ x, x ∈ querySelectorAllIn d (isOption d) 3 →
             hasDisabled d2 x = true)
     ∧ (∀ b e, querySelectorIn d (isShowAnswerBtn d) 3 = Some b →
               nextElementSibling d b = Some e → isHidden d2 e = false)).
Proof.
  apply (two_wrong_attempts (document (DOMContentLoaded quizDocument)) 3 11 12);
    by vm_compute.
Defined.

(** ** The registry, the cached elements and the current index *)

Lemma tryDocument_loaded r s :
  loaded (pageOf (tryDocument r s)) = loaded s
  ∧ currentQuestionIndex (pageOf (tryDocument r s)) = currentQuestionIndex s
  ∧ currentMode (pageOf (tryDocument r s)) = currentMode s.
Proof. by destruct r. Qed.

Lemma restoreListView_loaded s :
  loaded (pageOf (restoreListView s)) = loaded s
  ∧ currentQuestionIndex (pageOf (restoreListView s)) = currentQuestionIndex s
  ∧ currentMode (pageOf (restoreListView s)) = currentMode s.
Proof.
  unfold restoreListView.
  set (s1 := match singleQuestionContainer s with
             | Some c => onDocument (removeAllChildren c) s
             | None => s
             end).
  set (proj := λ s : Page, (loaded s, currentQuestionIndex s, currentMode s)).
  assert (H1 : proj s1 = proj s)
    by (unfold s1; by destruct (singleQuestionContainer s)).
  assert (Hstep : ∀ q s0, proj (pageOf (restoreEntry q s0)) = proj s0).
  { intros q s0. unfold restoreEntry, proj.
    destruct (originalParent q) as [p|]; [|done].
    by destruct (tryDocument_loaded
                   (insertBefore p (element q) (originalNextSibling q)
                      (document s0)) s0) as (-> & -> & ->). }
  pose proof (forEach_proj proj restoreEntry (allQuestions s1) s1 Hstep) as H.
  rewrite H1 in H. split; [|split].
  - exact (f_equal (λ x, x.1.1) H).
  - exact (f_equal (λ x, x.1.2) H).
  - exact (f_equal (λ x, x.2) H).
Qed.

(** [renderSingleQuestion] either leaves the index alone (the guard of
    line 53) or sets it to its argument. *)
Lemma renderSingleQuestion_loaded i s :
  loaded (pageOf (renderSingleQuestion i s)) = loaded s
  ∧ currentMode (pageOf (renderSingleQuestion i s)) = currentMode s
  ∧ (currentQuestionIndex (pageOf (renderSingleQuestion i s))
     = currentQuestionIndex s
     ∨ (currentQuestionIndex (pageOf (renderSingleQuestion i s)) = i
        ∧ allQuestions s ≠ [])).
Proof.
  unfold renderSingleQuestion.
  destruct (singleQuestionContainer s) as [c|] eqn:Hc; [|by auto].
  destruct (questionProgress s) as [pr|] eqn:Hpr; [|by auto].
  destruct (prevQuestionBtn s) as [pv|] eqn:Hpv; [|by auto].
  destruct (nextQuestionBtn s) as [nx|] eqn:Hnx; [|by auto].
  case_bool_decide as Hlen; [by auto|].
  assert (allQuestions s ≠ []) by (by intros Hnil; rewrite Hnil in Hlen).
  simpl. destruct (allQuestions s !! i) as [q|].
  - destruct (appendChild c (element q) _) as [e|d']; simpl.
    + unfold loaded. simpl. rewrite Hc, Hpr, Hpv, Hnx. auto.
    + unfold loaded. simpl. rewrite Hc, Hpr, Hpv, Hnx. auto.
  - simpl. unfold loaded. simpl. rewrite Hc, Hpr, Hpv, Hnx. auto.
Qed.

Lemma switchMode_loaded m s :
  loaded (pageOf (switchMode m s)) = loaded s
  ∧ (currentQuestionIndex (pageOf (switchMode m s)) = currentQuestionIndex s).
Proof.
  unfold switchMode. case_decide; [done|].
  set (s3 := onDocument _ _).
  assert (H3 : loaded s3 = loaded s ∧ currentQuestionIndex s3
                                        = currentQuestionIndex s) by done.
  destruct H3 as [Hl Hi].
  destruct m.
  - destruct (restoreListView_loaded s3) as (-> & -> & _). done.
  - destruct (renderSingleQuestion_loaded (currentQuestionIndex s3) s3)
      as (-> & _ & [->| [-> _]]); done.
  - destruct (renderSingleQuestion_loaded (currentQuestionIndex s3) s3)
      as (-> & _ & [->| [-> _]]); done.
Qed.

Lemma loaded_allQuestions s s' :
  loaded s' = loaded s → allQuestions s' = allQuestions s.
Proof. unfold loaded. by intros [= -> _ _ _ _ _]. Qed.

Lemma dispatch_loaded e s :
  loaded (pageOf (dispatch e s)) = loaded s
  ∧ (indexInRange s → indexInRange (pageOf (dispatch e s))).
Proof.
  destruct e; simpl.
  - destruct (switchMode_loaded mode s) as [Hl Hi]. split; [done|].
    unfold indexInRange. by rewrite Hi, (loaded_allQuestions _ _ Hl).
  - case_bool_decide as Hlt; [|done].
    destruct (renderSingleQuestion_loaded (currentQuestionIndex s - 1) s)
      as (Hl & _ & Hi).
    split; [done|]. unfold indexInRange.
    rewrite (loaded_allQuestions _ _ Hl).
    intros [H1 H2]. destruct Hi as [->|[-> Hne]]; [done|].
    split; [|done]. intros _. specialize (H1 Hne). lia.
  - case_bool_decide as Hlt; [|done].
    destruct (renderSingleQuestion_loaded (currentQuestionIndex s + 1) s)
      as (Hl & _ & Hi).
    split; [done|]. unfold indexInRange.
    rewrite (loaded_allQuestions _ _ Hl).
    intros [H1 H2]. destruct Hi as [->|[-> Hne]]; [done|].
    split; [|done]. intros _. lia.
  - done.
  - done.
  - by case_bool_decide.
  - unfold expandAll. by case_decide.
  - unfold collapseAll. by case_decide.
Qed.

Lemma run_loaded es s :
  loaded (run es s) = loaded s ∧ (indexInRange s → indexInRange (run es s)).
Proof.
  revert s. induction es as [|e es IH]; intros s; [done|].
  rewrite run_cons.
  destruct (dispatch_loaded e s) as [H1 H2].
  destruct (IH (pageOf (dispatch e s))) as [H3 H4].
  split; [by rewrite H3|auto].
Qed.

(** ** C9: the current index *)

(** C9 (amended).  In every state reachable from the loaded page the
    registry is the one built at load time; when it is non-empty the
    current index lies in [0, length), whatever the mode; when it is empty
    the index is still 0. *)
Theorem currentQuestionIndex_in_range (d : Document) (es : list Event) :
  allQuestions (run es (DOMContentLoaded d)) = allQuestions (DOMContentLoaded d)
  ∧ (allQuestions (run es (DOMContentLoaded d)) ≠ [] →
     currentQuestionIndex (run es (DOMContentLoaded d))
     < length (allQuestions (run es (DOMContentLoaded d))))
  ∧ (allQuestions (run es (DOMContentLoaded d)) = [] →
     currentQuestionIndex (run es (DOMContentLoaded d)) = 0).
Proof.
  destruct (run_loaded es (DOMContentLoaded d)) as [Hl Hi].
  split; [by apply loaded_allQuestions|].
  apply Hi. split.
  - intros Hne. simpl in *. destruct (buildRegistry d); [done|simpl; lia].
  - done.
Qed.

(** C9 as stated fails: on a page without questions, switching to Single
    gives a state whose mode is not List and whose index, 0, is not below
    the registry length, 0. *)
Lemma currentQuestionIndex_empty_registry :
  let s := run [ModeClick ModeSingle] (DOMContentLoaded emptyDocument) in
  currentMode s = ModeSingle
  ∧ length (allQuestions s) = 0
  ∧ ¬ (0 ≤ currentQuestionIndex s ∧ currentQuestionIndex s < length (allQuestions s)).
Proof.
  split; [by vm_compute|]. split; [by vm_compute|].
  intros [_ H]. vm_compute in H. lia.
Qed.

(** ** C10: a mode switch whose render does nothing *)

Lemma markModeButton_loop m l d b :
  hasClass (forEachNode (markModeButton m) l d) b "active"
  = if bool_decide (b ∈ l)
    then bool_decide (dataMode d !! b = Some (modeName m))
    else hasClass d b "active".
Proof.
  revert d. induction l as [|y l IH]; intros d; cbn [forEachNode].
  - rewrite bool_decide_eq_false_2; [done|]. by intros ?%elem_of_nil.
  - rewrite IH.
    assert (Hm : dataMode (markModeButton m y d) = dataMode d)
      by (unfold markModeButton;
          by destruct (bool_decide (dataMode d !! y = Some (modeName m)))).
    rewrite Hm.
    destruct (decide (b ∈ l)) as [Hl|Hl].
    + rewrite (bool_decide_eq_true_2 (b ∈ l)) by done.
      rewrite (bool_decide_eq_true_2 (b ∈ y :: l)); [done|].
      apply elem_of_cons. by right.
    + rewrite (bool_decide_eq_false_2 (b ∈ l)) by done.
      destruct (decide (b = y)) as [->|Hy].
      * rewrite (bool_decide_eq_true_2 (y ∈ y :: l))
          by apply list_elem_of_here.
        unfold markModeButton.
        destruct (bool_decide (dataMode d !! y = Some (modeName m))).
        -- rewrite hasClass_classListAdd.
           rewrite !bool_decide_eq_true_2 by done. by rewrite orb_true_r.
        -- rewrite hasClass_classListRemove.
           rewrite !bool_decide_eq_true_2 by done. by rewrite andb_false_r.
      * rewrite (bool_decide_eq_false_2 (b ∈ y :: l)).
        2:{ intros [?|?]%elem_of_cons; done. }
        unfold markModeButton.
        destruct (bool_decide (dataMode d !! y = Some (modeName m))).
        -- rewrite hasClass_classListAdd.
           rewrite (bool_decide_eq_false_2 (b = y)) by done.
           by rewrite orb_false_r.
        -- rewrite hasClass_classListRemove.
           rewrite (bool_decide_eq_false_2 (b = y)) by done.
           by rewrite andb_true_r.
Qed.

Lemma markModeButton_loop_frame m l d :
  let d' := forEachNode (markModeButton m) l d in
  childNodes d' = childNodes d ∧ disabledAttr d' = disabledAttr d
  ∧ textContent d' = textContent d ∧ style d' = style d
  ∧ bodyViewMode d' = bodyViewMode d ∧ nodeCount d' = nodeCount d
  ∧ documentElement d' = documentElement d.
Proof.
  assert (Hf : ∀ A (proj : Document → A),
             (∀ c d, proj (withClassList c d) = proj d) →
             proj (forEachNode (markModeButton m) l d) = proj d).
  { intros A proj Hp. apply forEachNode_preserves. intros x d0.
    unfold markModeButton.
    destruct (bool_decide (dataMode d0 !! x = Some (modeName m))); apply Hp. }
  repeat split; by apply Hf.
Qed.

(** C10.  When [switchMode] is called with Single or Exam, the mode
    differs from the current one and [renderSingleQuestion]'s guard fails
    (a control is missing or the registry is empty), the call returns
    normally with the mode change in place -- [currentMode], the body's
    view-mode indicator and the [active] class of every mode button in the
    document are updated -- while the tree, hence the content of the
    display surface, the current index, the registry and the other
    attributes are exactly as before. *)
Theorem switchMode_without_render (s : Page) (m : Mode) :
  m ≠ ModeList → currentMode s ≠ m →
  singleQuestionContainer s = None ∨ questionProgress s = None
  ∨ prevQuestionBtn s = None ∨ nextQuestionBtn s = None
  ∨ allQuestions s = [] →
  ∃ s', switchMode m s = Done s'
    ∧ currentMode s' = m
    ∧ bodyViewMode (document s') = Some (modeName m)
    ∧ (∀ b, b ∈ querySelectorAll (document s) (isModeBtn (document s)) →
            hasClass (document s') b "active" = true
            ↔ dataMode (document s) !! b = Some (modeName m))
    ∧ childNodes (document s') = childNodes (document s)
    ∧ (∀ c, singleQuestionContainer s' = Some c →
            kids (document s') c = kids (document s) c)
    ∧ currentQuestionIndex s' = currentQuestionIndex s
    ∧ loaded s' = loaded s
    ∧ disabledAttr (document s') = disabledAttr (document s)
    ∧ textContent (document s') = textContent (document s)
    ∧ style (document s') = style (document s).
Proof.
  intros Hm Hcur Hguard. unfold switchMode. rewrite decide_False by done.
  set (s3 := onDocument _ _).
  assert (Hr : renderSingleQuestion (currentQuestionIndex s3) s3 = Done s3).
  { unfold renderSingleQuestion.
    change (singleQuestionContainer s3) with (singleQuestionContainer s).
    change (questionProgress s3) with (questionProgress s).
    change (prevQuestionBtn s3) with (prevQuestionBtn s).
    change (nextQuestionBtn s3) with (nextQuestionBtn s).
    change (allQuestions s3) with (allQuestions s).
    destruct Hguard as [-> | [-> | [-> | [-> | -> ]]]];
      repeat case_match; done. }
  exists s3. split; [by destruct m|].
  destruct (markModeButton_loop_frame m
              (querySelectorAll (document s) (isModeBtn (document s)))
              (withBodyViewMode (Some (modeName m)) (document s)))
    as (Ht & Hd & Htx & Hst & Hb & _).
  split; [done|]. split; [exact Hb|]. split.
  { intros b Hbtn. unfold s3. simpl.
    change (querySelectorAll (withBodyViewMode _ (document s)) _)
      with (querySelectorAll (document s) (isModeBtn (document s))).
    rewrite markModeButton_loop, (bool_decide_eq_true_2 _ Hbtn).
    by rewrite bool_decide_eq_true. }
  split; [exact Ht|]. split.
  { intros c _. unfold kids. simpl.
    change (querySelectorAll (withBodyViewMode _ (document s)) _)
      with (querySelectorAll (document s) (isModeBtn (document s))).
    by rewrite Ht. }
  done.
Qed.

Lemma switchMode_without_render_witness :
  let s := DOMContentLoaded emptyDocument in
  ∃ s', switchMode ModeExam s = Done s'
    ∧ currentMode s' = ModeExam
    ∧ bodyViewMode (document s') = Some (modeName ModeExam)
    ∧ (∀ b, b ∈ querySelectorAll (document s) (isModeBtn (document s)) →
            hasClass (document s') b "active" = true
            ↔ dataMode (document s) !! b = Some (modeName ModeExam))
    ∧ childNodes (document s') = childNodes (document s)
    ∧ (∀ c, singleQuestionContainer s' = Some c →
            kids (document s') c = kids (document s) c)
    ∧ currentQuestionIndex s' = currentQuestionIndex s
    ∧ loaded s' = loaded s
    ∧ disabledAttr (document s') = disabledAttr (document s)
    ∧ textContent (document s') = textContent (document s)
    ∧ style (document s') = style (document s).
Proof.
  apply (switchMode_without_render (DOMContentLoaded emptyDocument) ModeExam).
  - done.
  - by vm_compute.
  - right; right; right; right. by vm_compute.
Defined.

(** ** Child lists *)

Lemma kidsOf_insert t p l n :
  kidsOf (<[p := l]> t) n = if decide (n = p) then l else kidsOf t n.
Proof.
  unfold kidsOf. case_decide as H.
  - subst. by rewrite lookup_insert_eq.
  - by rewrite lookup_insert_ne.
Qed.

Lemma kidsOf_detach q t n : kidsOf (detach q t) n = without q (kidsOf t n).
Proof.
  unfold kidsOf, detach. rewrite lookup_fmap. by destruct (t !! n).
Qed.

Lemma kidsOf_fmap_without q (t : gmap node (list node)) n :
  kidsOf (without q <$> t) n = without q (kidsOf t n).
Proof. apply kidsOf_detach. Qed.

Lemma childNodes_setDisabled n b d :
  childNodes (setDisabled n b d) = childNodes d.
Proof. by destruct b. Qed.

Lemma without_not_in q l : q ∉ l → without q l = l.
Proof.
  intros Hq. unfold without. induction l as [|x l IH]; [done|].
  rewrite not_elem_of_cons in Hq. destruct Hq as [Hx Hl].
  rewrite filter_cons_True by done. by rewrite IH.
Qed.

Lemma without_elem q l x : x ∈ without q l ↔ x ≠ q ∧ x ∈ l.
Proof. unfold without. by rewrite list_elem_of_filter. Qed.

Lemma without_split q l1 l2 :
  q ∉ l1 → q ∉ l2 → without q (l1 ++ q :: l2) = l1 ++ l2.
Proof.
  intros H1 H2. unfold without. rewrite filter_app, filter_cons_False by auto.
  fold (without q l1). fold (without q l2).
  by rewrite !without_not_in.
Qed.

Lemma following_split q l1 l2 : q ∉ l1 → following q (l1 ++ q :: l2) = l2.
Proof.
  induction l1 as [|x l1 IH]; intros Hq; simpl.
  - by rewrite decide_True.
  - rewrite not_elem_of_cons in Hq. destruct Hq as [Hx Hl].
    rewrite decide_False by done. auto.
Qed.

Lemma insertBeforeIn_split n r l1 l2 :
  r ∉ l1 → insertBeforeIn n r (l1 ++ r :: l2) = l1 ++ n :: r :: l2.
Proof.
  induction l1 as [|x l1 IH]; intros Hr; simpl.
  - by rewrite decide_True.
  - rewrite not_elem_of_cons in Hr. destruct Hr as [Hx Hl].
    rewrite decide_False by done. by rewrite IH.
Qed.

(** Putting a node back where it was taken from. *)
Lemma placeAt_back q l1 l2 :
  NoDup (l1 ++ q :: l2) → placeAt q (head l2) (l1 ++ l2) = l1 ++ q :: l2.
Proof.
  intros Hnd. destruct l2 as [|r l2]; simpl.
  - by rewrite app_nil_r.
  - apply insertBeforeIn_split.
    apply NoDup_app in Hnd as (_ & Hdisj & _).
    intros Hr. apply (Hdisj r Hr). set_solver.
Qed.

Lemma NoDup_split_not_in {A} (q : A) l1 l2 :
  NoDup (l1 ++ q :: l2) → (q ∉ l1) ∧ (q ∉ l2).
Proof.
  intros Hnd. apply NoDup_app in Hnd as (_ & Hdisj & Hnd2).
  apply NoDup_cons in Hnd2 as [Hq2 _]. split; [|done].
  intros Hq. apply (Hdisj q Hq). set_solver.
Qed.

(** ** Walks in the tree *)

Lemma elem_of_subtree t f n x :
  x ∈ subtree t (S f) n ↔ x = n ∨ ∃ c, c ∈ kidsOf t n ∧ x ∈ subtree t f c.
Proof.
  simpl. rewrite elem_of_cons. apply or_iff_compat_l.
  rewrite list_elem_of_bind. naive_solver.
Qed.

Lemma subtree_rank t (rank : node → nat) f n x :
  (∀ p c, c ∈ kidsOf t p → rank p < rank c) →
  x ∈ subtree t f n → rank n ≤ rank x.
Proof.
  intros Hrank. revert n. induction f as [|f IH]; intros n Hx.
  - by apply elem_of_nil in Hx.
  - apply elem_of_subtree in Hx as [->|(c & Hc & Hx)]; [done|].
    specialize (Hrank n c Hc). specialize (IH c Hx). lia.
Qed.

Lemma subtree_sub t t' f n x :
  (∀ p c, c ∈ kidsOf t' p → c ∈ kidsOf t p) →
  x ∈ subtree t' f n → x ∈ subtree t f n.
Proof.
  intros Hsub. revert n. induction f as [|f IH]; intros n Hx; [done|].
  apply elem_of_subtree. apply elem_of_subtree in Hx as [->|(c & Hc & Hx)];
    [by left|right]. eauto.
Qed.

Lemma subtree_fuel_mono t f f' n x :
  f ≤ f' → x ∈ subtree t f n → x ∈ subtree t f' n.
Proof.
  revert f' n. induction f as [|f IH]; intros f' n Hle Hx.
  - by apply elem_of_nil in Hx.
  - destruct f' as [|f']; [lia|].
    apply elem_of_subtree. apply elem_of_subtree in Hx as [->|(c & Hc & Hx)];
      [by left|right].
    exists c. split; [done|]. apply IH; [lia|done].
Qed.

Lemma subtree_parent t f n x :
  x ∈ subtree t f n → x = n ∨ ∃ p, x ∈ kidsOf t p.
Proof.
  revert n. induction f as [|f IH]; intros n Hx.
  - by apply elem_of_nil in Hx.
  - apply elem_of_subtree in Hx as [->|(c & Hc & Hx)]; [by left|].
    destruct (IH c Hx) as [->|?]; eauto.
Qed.

Lemma subtree_self t f n : n ∈ subtree t (S f) n.
Proof. apply elem_of_subtree. by left. Qed.

Lemma parentNode_Some d n p : parentNode d n = Some p → n ∈ kids d p.
Proof.
  unfold parentNode. intros H.
  destruct (find _ _) as [[p' l]|] eqn:Hf; [|done].
  simpl in H. injection H as ->.
  apply find_some in Hf as [Hin Hn]. simpl in Hn.
  apply bool_decide_eq_true in Hn.
  apply list_elem_of_In, elem_of_map_to_list in Hin.
  unfold kids, kidsOf. by rewrite Hin.
Qed.

Lemma parentNode_is_Some d n p : n ∈ kids d p → is_Some (parentNode d n).
Proof.
  unfold kids, kidsOf, parentNode. intros Hn.
  destruct (childNodes d !! p) as [l|] eqn:Hp; [|by apply elem_of_nil in Hn].
  simpl in Hn.
  destruct (find _ _) as [pl|] eqn:Hf; [by eexists|].
  apply elem_of_map_to_list, list_elem_of_In in Hp.
  pose proof (find_none _ _ Hf _ Hp) as Hnone. simpl in Hnone.
  by apply bool_decide_eq_false in Hnone.
Qed.

(** ** The runnable well-formedness check is sound *)

Lemma NoDup_bind_snd (L : list (node * list node)) p l p' l' c :
  NoDup (L ≫= snd) → NoDup L.*1 →
  (p, l) ∈ L → (p', l') ∈ L → c ∈ l → c ∈ l' → p = p'.
Proof.
  induction L as [|[p0 l0] L IH]; intros Hnd Hkeys Hp Hp' Hc Hc'.
  - by apply elem_of_nil in Hp.
  - simpl in Hnd. apply NoDup_app in Hnd as (_ & Hdisj & Hnd).
    simpl in Hkeys. apply NoDup_cons in Hkeys as [_ Hkeys].
    apply elem_of_cons in Hp as [Hp|Hp], Hp' as [Hp'|Hp'].
    + congruence.
    + injection Hp as -> ->. exfalso. apply (Hdisj c Hc).
      apply list_elem_of_bind. by exists (p', l').
    + injection Hp' as -> ->. exfalso. apply (Hdisj c Hc').
      apply list_elem_of_bind. by exists (p, l).
    + by apply IH.
Qed.

Lemma NoDup_bind_elem (L : list (node * list node)) p l :
  NoDup (L ≫= snd) → (p, l) ∈ L → NoDup l.
Proof.
  induction L as [|[p0 l0] L IH]; intros Hnd Hp.
  - by apply elem_of_nil in Hp.
  - simpl in Hnd. apply NoDup_app in Hnd as (Hl0 & _ & Hnd).
    apply elem_of_cons in Hp as [Hp|Hp]; [by injection Hp as -> ->|auto].
Qed.

Lemma kidsOf_elem t p c :
  c ∈ kidsOf t p → ∃ l, t !! p = Some l ∧ c ∈ l.
Proof.
  unfold kidsOf. destruct (t !! p) as [l|]; simpl; [eauto|].
  by intros ?%elem_of_nil.
Qed.

Lemma treeCheck_wellFormed d : treeCheck d = true → wellFormed d.
Proof.
  unfold treeCheck, wellFormed, TreeOK.
  intros [[Hnd%bool_decide_eq_true Hrank]%andb_true_iff
            Hcount%bool_decide_eq_true]%andb_true_iff.
  split; [|done]. split; [|split].
  - intros p. unfold kidsOf.
    destruct (childNodes d !! p) as [l|] eqn:Hp; [|apply NoDup_nil_2].
    apply (NoDup_bind_elem _ p l Hnd). by apply elem_of_map_to_list.
  - intros p p' c (l & Hl & Hc)%kidsOf_elem (l' & Hl' & Hc')%kidsOf_elem.
    apply (NoDup_bind_snd (map_to_list (childNodes d)) p l p' l' c);
      try done; try (by apply elem_of_map_to_list).
    apply NoDup_fst_map_to_list.
  - exists id. intros p c (l & Hl & Hc)%kidsOf_elem.
    rewrite forallb_forall in Hrank.
    apply elem_of_map_to_list, list_elem_of_In in Hl.
    specialize (Hrank _ Hl). simpl in Hrank.
    rewrite forallb_forall in Hrank.
    apply list_elem_of_In in Hc. specialize (Hrank _ Hc).
    by apply bool_decide_eq_true in Hrank.
Qed.

(** ** [insertBefore] when its checks pass *)

Lemma insertBefore_ok parent n ref d :
  parent ∉ inclusiveDescendants d n →
  match ref with
  | None => True
  | Some r => r ∈ kids d parent ∧ r ≠ n
  end →
  insertBefore parent n ref d
  = inr (withChildNodes
           (<[parent := placeAt n ref (without n (kids d parent))]>
              (detach n (childNodes d))) d).
Proof.
  intros Hh Hr. unfold insertBefore.
  rewrite bool_decide_eq_false_2 by done.
  rewrite kidsOf_detach. fold (kids d parent).
  destruct ref as [r|].
  - destruct Hr as [Hr Hne].
    rewrite (bool_decide_eq_true_2 _ Hr).
    rewrite bool_decide_eq_false_2; [done|]. by intros [= ->].
  - by rewrite bool_decide_eq_false_2.
Qed.

Lemma insertBefore_not_found parent n r d :
  parent ∉ inclusiveDescendants d n → r ∉ kids d parent →
  insertBefore parent n (Some r) d = inl NotFoundError.
Proof.
  intros Hh Hr. unfold insertBefore.
  rewrite bool_decide_eq_false_2 by done.
  by rewrite (bool_decide_eq_false_2 _ Hr).
Qed.

(** ** Restoring settled trees *)

Section Restore.
Context (T : gmap node (list node)) (bound : nat) (V : list node).
Hypothesis HT : TreeOK bound T.

Lemma settled_edges t pending p c :
  Settled T t V pending → c ∈ kidsOf t p → c ∈ kidsOf T p.
Proof.
  intros [H1 H2] Hc. destruct (decide (p ∈ V)) as [Hp|Hp].
  - destruct (H2 p Hp) as [Hv|Hv]; rewrite Hv in Hc; [|done].
    by apply elem_of_nil in Hc.
  - rewrite (H1 p Hp) in Hc. destruct pending; [|done].
    by apply without_elem in Hc as [_ ?].
Qed.

Lemma settled_not_inside t pending f q p :
  Settled T t V pending → q ∈ kidsOf T p → p ∉ subtree t f q.
Proof.
  intros Hs Hq Hp. destruct HT as (_ & _ & rank & Hrank).
  assert (rank q ≤ rank p).
  { apply (subtree_rank t rank f q p); [|done].
    intros p' c Hc. apply Hrank. by eapply settled_edges. }
  destruct (Hrank p q Hq). lia.
Qed.

Lemma restoreEntry_settled s e pending :
  Settled T (childNodes (document s)) V pending →
  pending = None ∨ pending = Some (element e) →
  Recorded T V e →
  ∃ t', restoreEntry e s = Done (onDocument (withChildNodes t') s)
        ∧ Settled T t' V None.
Proof.
  intros Hs Hpend (p & l1 & l2 & Hp & HpV & Hkids & Hns).
  set (q := element e) in *. set (t := childNodes (document s)) in *.
  destruct HT as (Hnd & Huniq & _).
  assert (Hndp : NoDup (l1 ++ q :: l2)) by (rewrite <- Hkids; apply Hnd).
  destruct (NoDup_split_not_in _ _ _ Hndp) as [Hq1 Hq2].
  assert (HqT : q ∈ kidsOf T p) by (rewrite Hkids; set_solver).
  assert (Hcur : kidsOf t p = l1 ++ q :: l2 ∨ kidsOf t p = l1 ++ l2).
  { destruct Hs as [H1 _]. rewrite (H1 p HpV).
    destruct Hpend as [->| ->]; [by left|right].
    rewrite Hkids. by apply without_split. }
  assert (Hwo : without q (kidsOf t p) = l1 ++ l2).
  { destruct Hcur as [-> | ->]; [by apply without_split|].
    apply without_not_in. set_solver. }
  unfold restoreEntry. rewrite Hp. fold q.
  rewrite insertBefore_ok.
  - simpl. fold t. unfold kids. fold t. rewrite Hwo, Hns.
    rewrite placeAt_back by done.
    eexists. split; [reflexivity|].
    split.
    + intros n Hn. rewrite kidsOf_insert. case_decide as Hnp; [by subst|].
      rewrite kidsOf_detach.
      assert (HnT : q ∉ kidsOf T n).
      { intros Hin. apply Hnp. by apply (Huniq n p q). }
      destruct Hs as [H1 _]. rewrite (H1 n Hn).
      destruct pending as [q'|].
      * destruct Hpend as [?|[= ->]]; [done|].
        rewrite (without_not_in q (kidsOf T n)) by done.
        by apply without_not_in.
      * by apply without_not_in.
    + intros v Hv. rewrite kidsOf_insert.
      rewrite decide_False by (by intros ->).
      rewrite kidsOf_detach.
      destruct Hs as [_ H2]. destruct (H2 v Hv) as [Hvk|Hvk]; rewrite Hvk.
      * by left.
      * right. apply without_not_in. intros Hin.
        apply HpV. by rewrite <- (Huniq v p q Hin HqT).
  - by apply (settled_not_inside t pending).
  - rewrite Hns. destruct l2 as [|r l2]; simpl; [done|].
    split.
    + unfold kids. fold t. destruct Hcur as [-> | ->]; set_solver.
    + intros ->. apply Hq2. set_solver.
Qed.

Lemma forEach_restoreEntry_settled es s :
  Settled T (childNodes (document s)) V None →
  Forall (Recorded T V) es →
  ∃ t', forEach restoreEntry es s = Done (onDocument (withChildNodes t') s)
        ∧ Settled T t' V None.
Proof.
  revert s. induction es as [|e es IH]; intros s Hs Hes.
  - exists (childNodes (document s)). split; [|done].
    simpl. f_equal. by destruct s as [[] ? ? ? ? ? ? ? ?].
  - apply Forall_cons in Hes as [He Hes].
    destruct (restoreEntry_settled s e None Hs (or_introl eq_refl) He)
      as (t1 & Hr1 & Hs1).
    simpl. rewrite Hr1. simpl.
    destruct (IH (onDocument (withChildNodes t1) s) Hs1 Hes)
      as (t2 & Hr2 & Hs2).
    exists t2. by rewrite Hr2.
Qed.

(** An entry whose element is in place, while another element [q] is out:
    the entry is put back where it is, and [q] is still out. *)
Lemma restoreEntry_settled_other s e q :
  Settled T (childNodes (document s)) V (Some q) →
  Recorded T V e → element e ≠ q → originalNextSibling e ≠ Some q →
  ∃ t', restoreEntry e s = Done (onDocument (withChildNodes t') s)
        ∧ Settled T t' V (Some q).
Proof.
  intros Hs (p & l1 & l2 & Hp & HpV & Hkids & Hns) Hne Hnsq.
  set (x := element e) in *. set (t := childNodes (document s)) in *.
  destruct HT as (Hnd & Huniq & _).
  assert (Hndp : NoDup (l1 ++ x :: l2)) by (rewrite <- Hkids; apply Hnd).
  destruct (NoDup_split_not_in _ _ _ Hndp) as [Hx1 Hx2].
  assert (HxT : x ∈ kidsOf T p) by (rewrite Hkids; set_solver).
  assert (Hcur : kidsOf t p = without q l1 ++ x :: without q l2).
  { destruct Hs as [H1 _]. rewrite (H1 p HpV), Hkids. unfold without.
    by rewrite filter_app, filter_cons_True. }
  assert (Hndq : NoDup (without q l1 ++ x :: without q l2)).
  { rewrite <- Hcur. destruct Hs as [H1 _]. rewrite (H1 p HpV).
    apply NoDup_filter, Hnd. }
  destruct (NoDup_split_not_in _ _ _ Hndq) as [Hxq1 Hxq2].
  assert (Hwo : without x (kidsOf t p) = without q l1 ++ without q l2).
  { rewrite Hcur. by apply without_split. }
  assert (Hhead : head l2 = head (without q l2)).
  { destruct l2 as [|r l2]; [done|]. simpl in Hns.
    unfold without. rewrite filter_cons_True; [done|].
    intros ->. by apply Hnsq. }
  unfold restoreEntry. rewrite Hp. fold x.
  rewrite insertBefore_ok.
  - simpl. fold t. unfold kids. fold t. rewrite Hwo, Hns, Hhead.
    rewrite placeAt_back by done.
    eexists. split; [reflexivity|].
    split.
    + intros n Hn. rewrite kidsOf_insert. case_decide as Hnp.
      * subst n. rewrite Hkids. unfold without.
        by rewrite filter_app, filter_cons_True.
      * rewrite kidsOf_detach.
        destruct Hs as [H1 _]. rewrite (H1 n Hn).
        apply without_not_in. intros [_ Hin]%without_elem.
        apply Hnp. by apply (Huniq n p x).
    + intros v Hv. rewrite kidsOf_insert.
      rewrite decide_False by (by intros ->).
      rewrite kidsOf_detach.
      destruct Hs as [_ H2]. destruct (H2 v Hv) as [Hvk|Hvk]; rewrite Hvk.
      * by left.
      * right. apply without_not_in. intros Hin.
        apply HpV. by rewrite <- (Huniq v p x Hin HxT).
  - by apply (settled_not_inside t (Some q)).
  - rewrite Hns. destruct l2 as [|r l2]; simpl; [done|].
    split.
    + unfold kids. fold t. rewrite Hcur. simpl in Hhead.
      destruct (without q (r :: l2)) as [|r' l2'] eqn:Hw; [done|].
      injection Hhead as <-. set_solver.
    + intros ->. apply Hx2. set_solver.
Qed.

(** The whole loop, with at most one element taken out: the element of
    the entry at some position [i], which no earlier entry records as its
    next sibling. *)
Lemma restore_loop_settled es s pending :
  Settled T (childNodes (document s)) V pending →
  pending = None
  ∨ (∃ i e, es !! i = Some e ∧ pending = Some (element e)
            ∧ ∀ j e', j < i → es !! j = Some e' →
                      originalNextSibling e' ≠ Some (element e)) →
  Forall (Recorded T V) es →
  ∃ t', forEach restoreEntry es s = Done (onDocument (withChildNodes t') s)
        ∧ Settled T t' V None.
Proof.
  intros Hs [->|(i & e & Hi & -> & Hbefore)] Hes.
  { by apply forEach_restoreEntry_settled. }
  revert es s Hs Hi Hbefore Hes.
  induction i as [|i IH]; intros [|e0 es] s Hs Hi Hbefore Hes; try done.
  - injection Hi as ->.
    apply Forall_cons in Hes as [He Hes].
    destruct (restoreEntry_settled s e _ Hs (or_intror eq_refl) He)
      as (t1 & Hr1 & Hs1).
    simpl. rewrite Hr1. simpl.
    destruct (forEach_restoreEntry_settled es
                (onDocument (withChildNodes t1) s) Hs1 Hes)
      as (t2 & Hr2 & Hs2).
    exists t2. by rewrite Hr2.
  - apply Forall_cons in Hes as [He0 Hes]. simpl in Hi.
    destruct (decide (element e0 = element e)) as [Heq|Hne].
    + rewrite <- Heq in Hs.
      destruct (restoreEntry_settled s e0 _ Hs (or_intror eq_refl) He0)
        as (t1 & Hr1 & Hs1).
      simpl. rewrite Hr1. simpl.
      destruct (forEach_restoreEntry_settled es
                  (onDocument (withChildNodes t1) s) Hs1 Hes)
        as (t2 & Hr2 & Hs2).
      exists t2. by rewrite Hr2.
    + destruct (restoreEntry_settled_other s e0 (element e) Hs He0 Hne)
        as (t1 & Hr1 & Hs1).
      { apply (Hbefore 0); [lia|done]. }
      simpl. rewrite Hr1. simpl.
      destruct (IH es (onDocument (withChildNodes t1) s) Hs1 Hi) as (t2 & Hr2 & Hs2).
      { intros j e' Hj He'. apply (Hbefore (S j)); [lia|done]. }
      { done. }
      exists t2. by rewrite Hr2.
Qed.
End Restore.

(** ** The loaded page *)

Lemma getElementById_ext d d' i :
  childNodes d' = childNodes d → nodeCount d' = nodeCount d →
  documentElement d' = documentElement d → idAttr d' = idAttr d →
  getElementById d' i = getElementById d i.
Proof.
  intros Ht Hn Hr Hi.
  unfold getElementById, documentNodes, inclusiveDescendants, hasId.
  by rewrite Ht, Hn, Hr, Hi.
Qed.

Lemma getElementById_sink d i v :
  i ∈ ["single-question-container"; "question-progress";
       "total-questions"; "total-weeks"] →
  getElementById d i = Some v → v ∈ sinks d.
Proof.
  intros Hi Hv. unfold sinks. apply list_elem_of_omap. eauto.
Qed.

Ltac sink_id :=
  repeat first [apply list_elem_of_here | apply list_elem_of_further].

Lemma getElementById_Some d i v :
  getElementById d i = Some v → idAttr d !! v = Some i.
Proof.
  unfold getElementById. intros Hh.
  apply head_Some_elem_of, list_elem_of_filter in Hh as [Hh _].
  unfold hasId in Hh. by apply bool_decide_eq_true in Hh.
Qed.

Lemma classListToggle_other n c d x c' :
  c' ≠ c → hasClass (classListToggle n c d) x c' = hasClass d x c'.
Proof.
  intros Hc. unfold classListToggle. destruct (hasClass d n c).
  - rewrite hasClass_classListRemove.
    rewrite (bool_decide_eq_false_2 (c' = c)) by done.
    by rewrite andb_false_r, andb_true_r.
  - by apply hasClass_add_other.
Qed.

Lemma init_loop_frame l d :
  let d' := forEachNode (λ q d, setAnswered q false (setAttempts q 0 d)) l d in
  childNodes d' = childNodes d ∧ nodeCount d' = nodeCount d
  ∧ documentElement d' = documentElement d ∧ idAttr d' = idAttr d
  ∧ classList d' = classList d.
Proof.
  repeat split.
  - by apply (forEachNode_preserves childNodes).
  - by apply (forEachNode_preserves nodeCount).
  - by apply (forEachNode_preserves documentElement).
  - by apply (forEachNode_preserves idAttr).
  - by apply (forEachNode_preserves classList).
Qed.

Lemma DOMContentLoaded_static d :
  let d0 := document (DOMContentLoaded d) in
  nodeCount d0 = nodeCount d ∧ documentElement d0 = documentElement d
  ∧ (∀ x c, c ≠ "active" → hasClass d0 x c = hasClass d x c).
Proof.
  unfold DOMContentLoaded. simpl.
  set (d1 := forEachNode _ _ d).
  destruct (init_loop_frame (element <$> buildRegistry d) d)
    as (Ht1 & Hn1 & Hr1 & Hi1 & Hc1). fold d1 in Ht1, Hn1, Hr1, Hi1, Hc1.
  set (d2 := match getElementById d1 "total-questions" with
             | Some e => setTextContent e _ d1 | None => d1 end).
  assert (H2 : nodeCount d2 = nodeCount d ∧ documentElement d2 = documentElement d
               ∧ classList d2 = classList d).
  { unfold d2. by destruct (getElementById d1 "total-questions"). }
  set (d3 := match getElementById d1 "total-weeks" with
             | Some e => setTextContent e _ d2 | None => d2 end).
  assert (H3 : nodeCount d3 = nodeCount d ∧ documentElement d3 = documentElement d
               ∧ classList d3 = classList d).
  { unfold d3. by destruct (getElementById d1 "total-weeks"). }
  destruct H3 as (Hn3 & Hr3 & Hc3).
  assert (H4 : nodeCount (toggleWeek "1" d3) = nodeCount d
               ∧ documentElement (toggleWeek "1" d3) = documentElement d
               ∧ ∀ x c, c ≠ "active" →
                        hasClass (toggleWeek "1" d3) x c = hasClass d x c).
  { unfold toggleWeek.
    destruct (getElementById d3 ("week-" +:+ "1")) as [content|];
      [|by split_and!; try done; intros; apply hasClass_eq].
    destruct (getElementById d3 ("icon-" +:+ "1")) as [icon|];
      [|by split_and!; try done; intros; apply hasClass_eq].
    split_and!.
    - simpl. unfold classListToggle. by destruct (hasClass d3 content "active").
    - simpl. unfold classListToggle. by destruct (hasClass d3 content "active").
    - intros x c Hc.
      change (hasClass (classListToggle content "active" d3) x c = hasClass d x c).
      rewrite classListToggle_other by done. by apply hasClass_eq. }
  destruct (getElementById d3 "week-1").
  - destruct H4 as (? & ? & H4). split_and!; try done.
  - split_and!; try done. intros. by apply hasClass_eq.
Qed.

Lemma DOMContentLoaded_tree d :
  Settled (childNodes d) (childNodes (document (DOMContentLoaded d)))
    (sinks d) None.
Proof.
  unfold DOMContentLoaded. simpl.
  set (d1 := forEachNode _ _ d).
  destruct (init_loop_frame (element <$> buildRegistry d) d)
    as (Ht1 & Hn1 & Hr1 & Hi1 & Hc1). fold d1 in Ht1, Hn1, Hr1, Hi1, Hc1.
  rewrite !(getElementById_ext d d1) by done.
  set (d2 := match getElementById d "total-questions" with
             | Some e => setTextContent e _ d1 | None => d1 end).
  set (d3 := match getElementById d "total-weeks" with
             | Some e => setTextContent e _ d2 | None => d2 end).
  assert (Ht4 : childNodes (match getElementById d3 "week-1" with
                            | Some _ => toggleWeek "1" d3 | None => d3 end)
                = childNodes d3).
  { destruct (getElementById d3 "week-1"); [|done]. unfold toggleWeek.
    destruct (getElementById d3 ("week-" +:+ "1")) as [content|]; [|done].
    destruct (getElementById d3 ("icon-" +:+ "1")) as [icon|]; [|done].
    simpl. unfold classListToggle. by destruct (hasClass d3 content "active"). }
  rewrite Ht4.
  assert (Hk : ∀ n, (kidsOf (childNodes d3) n = []
                     ∧ (getElementById d "total-weeks" = Some n
                        ∨ getElementById d "total-questions" = Some n))
                    ∨ kidsOf (childNodes d3) n = kidsOf (childNodes d) n).
  { intros n. unfold d3, d2.
    destruct (getElementById d "total-weeks") as [tw|],
             (getElementById d "total-questions") as [tq|];
      cbn [childNodes setTextContent removeAllChildren withTextContent
             withChildNodes];
      rewrite ?kidsOf_insert, ?Ht1; repeat case_decide; naive_solver. }
  split.
  - intros n Hn. destruct (Hk n) as [[_ [H|H]]|H]; [| |done].
    + destruct Hn. apply (getElementById_sink d "total-weeks"); [sink_id|done].
    + destruct Hn.
      apply (getElementById_sink d "total-questions"); [sink_id|done].
  - intros v _. destruct (Hk v) as [[H _]|H]; auto.
Qed.

Lemma kid_in_descendants d p c :
  wellFormed d → c ∈ kids d p → c ∈ descendants d p.
Proof.
  intros [(_ & _ & rank & Hrank) _] Hc.
  destruct (Hrank p c Hc) as [H1 H2].
  unfold descendants, inclusiveDescendants.
  destruct (nodeCount d) as [|[|f]]; [lia..|].
  cbn [subtree drop]. apply list_elem_of_bind. exists c. split; [|done].
  apply subtree_self.
Qed.

Lemma questionFree_spec d v x :
  questionFree d v = true → x ∈ descendants d v → isQuestion d x = false.
Proof.
  unfold questionFree. rewrite forallb_forall. intros H Hx.
  apply list_elem_of_In in Hx. specialize (H x Hx).
  by apply negb_true_iff in H.
Qed.

Lemma questionFreeSinks_spec d v :
  questionFreeSinks d = true → v ∈ sinks d → questionFree d v = true.
Proof.
  unfold questionFreeSinks. rewrite forallb_forall. intros H Hv.
  apply list_elem_of_In in Hv. exact (H v Hv).
Qed.

(** Every entry the scan records describes its element's place in the
    parsed tree; its parent is none of the nodes [V] below which there is
    no question. *)
Lemma buildRegistry_recorded d V :
  wellFormed d → isQuestion d (documentElement d) = false →
  (∀ v, v ∈ V → questionFree d v = true) →
  Forall (Recorded (childNodes d) V) (buildRegistry d).
Proof.
  intros Hwf Hroot HV. unfold buildRegistry.
  apply Forall_fmap, Forall_forall. intros q Hq.
  apply list_elem_of_filter in Hq as [Hisq Hq].
  assert (Hpar : is_Some (parentNode d q)).
  { apply subtree_parent in Hq as [->|[p Hp]]; [congruence|].
    by apply (parentNode_is_Some d q p). }
  destruct Hpar as [p Hp]. pose proof (parentNode_Some d q p Hp) as Hin.
  apply list_elem_of_split_l in Hin as (l1 & l2 & Hl & Hq1).
  exists p, l1, l2. simpl. split_and!.
  - done.
  - intros HpV.
    assert (isQuestion d q = false); [|congruence].
    apply (questionFree_spec d p q (HV p HpV)).
    apply kid_in_descendants; [done|]. rewrite Hl. set_solver.
  - done.
  - unfold nextSibling. rewrite Hp. simpl. rewrite Hl.
    by rewrite following_split.
Qed.

(** ** Showing one question, then restoring the list *)

Section RoundTrip.
Context (T : gmap node (list node)) (bound : nat) (V : list node).
Hypothesis HT : TreeOK bound T.

Lemma settled_clear t c pending :
  Settled T t V pending → c ∈ V → Settled T (<[c := []]> t) V pending.
Proof.
  intros [H1 H2] Hc. split.
  - intros n Hn. rewrite kidsOf_insert, decide_False; [auto|].
    by intros ->.
  - intros v Hv. rewrite kidsOf_insert. case_decide; auto.
Qed.

(** After [renderSingleQuestion], once the display surface is emptied
    again, the tree is settled up to the element that was shown. *)
Lemma renderSingleQuestion_settled i s c :
  Settled T (childNodes (document s)) V None →
  singleQuestionContainer s = Some c → c ∈ V →
  (∀ pr, questionProgress s = Some pr → pr ∈ V) →
  Forall (Recorded T V) (allQuestions s) →
  ∃ pending,
    Settled T
      (<[c := []]> (childNodes (document (pageOf (renderSingleQuestion i s)))))
      V pending
    ∧ (pending = None
       ∨ ∃ e, allQuestions s !! i = Some e ∧ pending = Some (element e)).
Proof.
  intros Hs Hc HcV HprV Hreg. unfold renderSingleQuestion. rewrite Hc.
  destruct (questionProgress s) as [pr|] eqn:Hpr;
    [|exists None; split; [by apply settled_clear|by left]].
  destruct (prevQuestionBtn s) as [pv|];
    [|exists None; split; [by apply settled_clear|by left]].
  destruct (nextQuestionBtn s) as [nx|];
    [|exists None; split; [by apply settled_clear|by left]].
  case_bool_decide;
    [exists None; split; [by apply settled_clear|by left]|].
  cbn [allQuestions withCurrentQuestionIndex onDocument withDocument].
  destruct (allQuestions s !! i) as [e|] eqn:He.
  2:{ exists None. split; [|by left]. simpl.
      apply settled_clear; [by apply settled_clear|done]. }
  unfold appendChild, insertBefore.
  case_bool_decide.
  { exists None. split; [|by left]. simpl.
    apply settled_clear; [by apply settled_clear|done]. }
  exists (Some (element e)). split; [|right; eauto].
  set (q := element e).
  assert (He' : Recorded T V e).
  { rewrite Forall_forall in Hreg. apply Hreg.
    by apply list_elem_of_lookup_2 in He. }
  destruct He' as (p & l1 & l2 & Hp & HpV & Hkids & _). fold q in Hkids.
  destruct HT as (_ & Huniq & _).
  assert (HqT : q ∈ kidsOf T p) by (rewrite Hkids; set_solver).
  destruct Hs as [H1 H2].
  cbn. rewrite !childNodes_setDisabled.
  cbn [childNodes setTextContent removeAllChildren withTextContent
         withChildNodes].
  split.
  - intros n Hn. rewrite !kidsOf_insert.
    rewrite decide_False by (by intros ->).
    rewrite decide_False by (intros ->; by apply Hn, HprV).
    rewrite decide_False by (by intros ->).
    rewrite kidsOf_fmap_without, kidsOf_insert.
    rewrite decide_False by (by intros ->).
    by rewrite H1.
  - intros v Hv. rewrite !kidsOf_insert.
    case_decide; [by left|]. case_decide; [by left|].
    rewrite kidsOf_fmap_without, kidsOf_insert, decide_False by done.
    destruct (H2 v Hv) as [Hvk|Hvk]; rewrite Hvk; [by left|right].
    apply without_not_in. intros Hin.
    apply HpV. by rewrite <- (Huniq v p q Hin HqT).
Qed.

Lemma restoreListView_settled s pending :
  match singleQuestionContainer s with
  | Some c => c ∈ V ∧ Settled T (<[c := []]> (childNodes (document s))) V pending
  | None => Settled T (childNodes (document s)) V pending
  end →
  pending = None
  ∨ (∃ i e, allQuestions s !! i = Some e ∧ pending = Some (element e)
            ∧ ∀ j e', j < i → allQuestions s !! j = Some e' →
                      originalNextSibling e' ≠ Some (element e)) →
  Forall (Recorded T V) (allQuestions s) →
  ∃ t', restoreListView s = Done (onDocument (withChildNodes t') s)
        ∧ Settled T t' V None.
Proof.
  intros Hs Hpend Hreg. unfold restoreListView.
  destruct (singleQuestionContainer s) as [c|].
  - destruct Hs as [HcV Hs].
    destruct (restore_loop_settled T bound V HT (allQuestions s)
                (onDocument (removeAllChildren c) s) pending Hs Hpend Hreg)
      as (t' & Hr & Hs').
    exists t'. split; [|done]. exact Hr.
  - by apply (restore_loop_settled T bound V HT _ _ pending).
Qed.
End RoundTrip.

(** ** What a mode switch leaves alone *)

Lemma hasClass_remove_other n c d n' c' :
  c' ≠ c → hasClass (classListRemove n c d) n' c' = hasClass d n' c'.
Proof.
  intros Hc. rewrite hasClass_classListRemove.
  rewrite (bool_decide_eq_false_2 (c' = c)) by done.
  by rewrite andb_false_r, andb_true_r.
Qed.

Lemma markModeButton_other m l d x c :
  c ≠ "active" →
  hasClass (forEachNode (markModeButton m) l d) x c = hasClass d x c.
Proof.
  intros Hc. revert d. induction l as [|y l IH]; intros d; [done|].
  cbn [forEachNode]. rewrite IH. unfold markModeButton.
  destruct (bool_decide (dataMode d !! y = Some (modeName m))).
  - by apply hasClass_add_other.
  - by apply hasClass_remove_other.
Qed.

Lemma restoreListView_statics s :
  statics (pageOf (restoreListView s)) = statics s.
Proof.
  unfold restoreListView. rewrite forEach_proj.
  - by destruct (singleQuestionContainer s).
  - intros q s0. unfold restoreEntry.
    destruct (originalParent q) as [p|]; [|done].
    destruct (insertBefore _ _ _ _) as [e|d'] eqn:Hi; [done|].
    apply insertBefore_inr in Hi as [t ->]. done.
Qed.

Lemma renderSingleQuestion_statics i s :
  statics (pageOf (renderSingleQuestion i s)) = statics s.
Proof.
  unfold renderSingleQuestion.
  destruct (singleQuestionContainer s) as [c|]; [|done].
  destruct (questionProgress s) as [pr|]; [|done].
  destruct (prevQuestionBtn s) as [pv|]; [|done].
  destruct (nextQuestionBtn s) as [nx|]; [|done].
  case_bool_decide; [done|]. simpl.
  destruct (allQuestions s !! i) as [q|]; [|done].
  unfold appendChild.
  destruct (insertBefore _ _ _ _) as [e|d'] eqn:Hi; [done|].
  apply insertBefore_inr in Hi as [t ->]. simpl. unfold statics. simpl.
  unfold setDisabled. by repeat case_match.
Qed.

Lemma switchMode_static m s :
  nodeCount (document (pageOf (switchMode m s))) = nodeCount (document s)
  ∧ documentElement (document (pageOf (switchMode m s)))
    = documentElement (document s)
  ∧ (∀ x c, c ≠ "active" →
            hasClass (document (pageOf (switchMode m s))) x c
            = hasClass (document s) x c).
Proof.
  unfold switchMode. case_decide; [done|].
  set (s3 := onDocument _ _).
  destruct (markModeButton_loop_frame m
              (querySelectorAll (document s) (isModeBtn (document s)))
              (withBodyViewMode (Some (modeName m)) (document s)))
    as (_ & _ & _ & _ & _ & Hn & Hr).
  assert (H3 : nodeCount (document s3) = nodeCount (document s)
               ∧ documentElement (document s3) = documentElement (document s)
               ∧ ∀ x c, c ≠ "active" →
                        hasClass (document s3) x c = hasClass (document s) x c).
  { split; [exact Hn|]. split; [exact Hr|]. intros x c Hc.
    unfold s3. cbn [document onDocument withDocument withCurrentMode].
    by rewrite markModeButton_other. }
  assert (Hst : ∀ s', statics s' = statics s3 →
                      nodeCount (document s') = nodeCount (document s)
                      ∧ documentElement (document s') = documentElement (document s)
                      ∧ ∀ x c, c ≠ "active" →
                               hasClass (document s') x c
                               = hasClass (document s) x c).
  { intros s' Hs'.
    pose proof (f_equal (λ x, x.1.1) Hs') as H1.
    pose proof (f_equal (λ x, x.1.2) Hs') as H2.
    pose proof (f_equal (λ x, x.2) Hs') as H4. simpl in H1, H2, H4.
    destruct H3 as (H5 & H6 & H3).
    split; [by rewrite H1|]. split; [by rewrite H2|].
    intros x c Hc. rewrite <- H3 by done. by apply hasClass_eq. }
  destruct m; apply Hst.
  - apply restoreListView_statics.
  - apply renderSingleQuestion_statics.
  - apply renderSingleQuestion_statics.
Qed.

Lemma switchMode_currentMode m s : currentMode (pageOf (switchMode m s)) = m.
Proof.
  unfold switchMode. case_decide; [done|].
  set (s3 := onDocument _ _).
  destruct m.
  - by destruct (restoreListView_loaded s3) as (_ & _ & ->).
  - by destruct (renderSingleQuestion_loaded (currentQuestionIndex s3) s3)
      as (_ & -> & _).
  - by destruct (renderSingleQuestion_loaded (currentQuestionIndex s3) s3)
      as (_ & -> & _).
Qed.

(** ** Document order of the questions in a settled tree *)

Lemma filter_bind_ext {A B} (P : B → Prop) `{!∀ x, Decision (P x)}
    (l : list A) (g g' : A → list B) :
  (∀ c, c ∈ l → filter P (g c) = filter P (g' c)) →
  filter P (l ≫= g) = filter P (l ≫= g').
Proof.
  induction l as [|x l IH]; intros Hg; [done|]. rewrite !bind_cons.
  rewrite !filter_app, Hg, IH; [done| |set_solver].
  intros c Hc. apply Hg. set_solver.
Qed.

Lemma filter_none {A} (P : A → Prop) `{!∀ x, Decision (P x)} (l : list A) :
  (∀ x, x ∈ l → ¬ P x) → filter P l = [].
Proof.
  induction l as [|x l IH]; intros Hn; [done|].
  rewrite filter_cons_False by (apply Hn; set_solver).
  apply IH. intros y Hy. apply Hn. set_solver.
Qed.

Lemma settled_questions d V t f n :
  Settled (childNodes d) t V None →
  (∀ v, v ∈ V → questionFree d v = true) →
  f ≤ nodeCount d →
  filter (λ x, isQuestion d x = true) (subtree t f n)
  = filter (λ x, isQuestion d x = true) (subtree (childNodes d) f n).
Proof.
  intros [H1 H2] Hfree. revert n. induction f as [|f IH]; intros n Hf; [done|].
  cbn [subtree]. rewrite !filter_cons.
  assert (Hrest : filter (λ x, isQuestion d x = true) (kidsOf t n ≫= subtree t f)
                  = filter (λ x, isQuestion d x = true)
                      (kidsOf (childNodes d) n ≫= subtree (childNodes d) f)).
  { assert (Hk : kidsOf t n = kidsOf (childNodes d) n
                 ∨ (n ∈ V ∧ kidsOf t n = [])).
    { destruct (decide (n ∈ V)) as [Hn|Hn]; [|left; by apply H1].
      destruct (H2 n Hn); auto. }
    destruct Hk as [->|[Hn ->]].
    - apply filter_bind_ext. intros c _. apply IH. lia.
    - symmetry. apply filter_none. intros x Hx.
      rewrite (questionFree_spec d n x (Hfree n Hn)); [done|].
      unfold descendants, inclusiveDescendants.
      destruct (nodeCount d) as [|F]; [lia|]. cbn [subtree drop].
      apply list_elem_of_bind in Hx as (c & Hx & Hc).
      apply list_elem_of_bind. exists c. split; [|done].
      apply (subtree_fuel_mono _ f); [lia|done]. }
  by rewrite Hrest.
Qed.

(** ** What no handler changes: node count, root, and which elements are
    questions *)

Lemma sameQuestions_refl d : sameQuestions d d.
Proof. done. Qed.

Lemma sameQuestions_trans d1 d2 d3 :
  sameQuestions d1 d2 → sameQuestions d2 d3 → sameQuestions d1 d3.
Proof.
  intros (H1 & H2 & H3) (H4 & H5 & H6). split; [congruence|].
  split; [congruence|]. intros x. by rewrite H3.
Qed.

Lemma sameQuestions_frame d' d :
  nodeCount d' = nodeCount d → documentElement d' = documentElement d →
  classList d' = classList d → sameQuestions d' d.
Proof.
  intros H1 H2 H3. split; [done|]. split; [done|].
  intros x. by apply hasClass_eq.
Qed.

Lemma sameQuestions_classListAdd n c d :
  c ≠ "question" → sameQuestions (classListAdd n c d) d.
Proof.
  intros Hc. split; [done|]. split; [done|].
  intros x. apply hasClass_add_other. by intros <-.
Qed.

Lemma sameQuestions_classListRemove n c d :
  c ≠ "question" → sameQuestions (classListRemove n c d) d.
Proof.
  intros Hc. split; [done|]. split; [done|].
  intros x. apply hasClass_remove_other. by intros <-.
Qed.

Lemma sameQuestions_forEachNode f l d :
  (∀ x d, sameQuestions (f x d) d) → sameQuestions (forEachNode f l d) d.
Proof.
  intros Hf. revert d. induction l as [|x l IH]; intros d; [done|].
  cbn [forEachNode]. eapply sameQuestions_trans; [apply IH|apply Hf].
Qed.

Lemma showExplanation_same button d : sameQuestions (showExplanation button d) d.
Proof.
  destruct (showExplanation_frame button d)
    as (_ & _ & Hc & _ & Hn & Hr & _).
  by apply sameQuestions_frame.
Qed.

Lemma revealExplanation_same q d : sameQuestions (revealExplanation q d) d.
Proof.
  destruct (revealExplanation_frame q d) as (_ & _ & Hc & _ & Hn & Hr & _).
  by apply sameQuestions_frame.
Qed.

Lemma handleOptionClick_same o d : sameQuestions (handleOptionClick o d) d.
Proof.
  unfold handleOptionClick.
  destruct (closest d (isQuestion d) o) as [q|]; [|done].
  destruct (isAnswered d q || hasClass d o "user-incorrect"); [done|].
  assert (H1 : sameQuestions (setAttempts q (S (getAttempts d q)) d) d)
    by (by apply sameQuestions_frame).
  destruct (hasClass d o "correct").
  - eapply sameQuestions_trans; [apply revealExplanation_same|].
    eapply sameQuestions_trans.
    { apply sameQuestions_forEachNode. intros x d0.
      by apply sameQuestions_frame. }
    eapply sameQuestions_trans; [by apply sameQuestions_frame|].
    eapply sameQuestions_trans; [by apply sameQuestions_classListAdd|done].
  - assert (H3 : sameQuestions
                   (setDisabledAttr o
                      (classListAdd o "user-incorrect"
                         (setAttempts q (S (getAttempts d q)) d))) d).
    { eapply sameQuestions_trans; [by apply sameQuestions_frame|].
      eapply sameQuestions_trans; [by apply sameQuestions_classListAdd|done]. }
    case_bool_decide; [|done].
    eapply sameQuestions_trans; [apply revealExplanation_same|].
    eapply sameQuestions_trans.
    { apply sameQuestions_forEachNode. intros x d0.
      destruct (hasDisabled d0 x); [done|]. by apply sameQuestions_frame. }
    eapply sameQuestions_trans; [|exact H3].
    destruct (querySelectorIn _ _ _).
    + eapply sameQuestions_trans; [by apply sameQuestions_classListAdd|].
      by apply sameQuestions_frame.
    + by apply sameQuestions_frame.
Qed.

Lemma toggleWeek_same w d : sameQuestions (toggleWeek w d) d.
Proof.
  unfold toggleWeek.
  destruct (getElementById d ("week-" +:+ w)) as [content|]; [|done].
  destruct (getElementById d ("icon-" +:+ w)) as [icon|]; [|done].
  eapply sameQuestions_trans; [by apply sameQuestions_frame|].
  unfold classListToggle. destruct (hasClass d content "active").
  - by apply sameQuestions_classListRemove.
  - by apply sameQuestions_classListAdd.
Qed.

Lemma statics_same s' s :
  statics s' = statics s → sameQuestions (document s') (document s).
Proof.
  intros H.
  pose proof (f_equal (λ x, x.1.1) H) as H1.
  pose proof (f_equal (λ x, x.1.2) H) as H2.
  pose proof (f_equal (λ x, x.2) H) as H3. simpl in H1, H2, H3.
  by apply sameQuestions_frame.
Qed.

Lemma dispatch_same e s :
  sameQuestions (document (pageOf (dispatch e s))) (document s).
Proof.
  destruct e; simpl.
  - destruct (switchMode_static mode s) as (Hn & Hr & Hc).
    split; [done|]. split; [done|]. intros x. by apply Hc.
  - case_bool_decide; [|done].
    apply statics_same, renderSingleQuestion_statics.
  - case_bool_decide; [|done].
    apply statics_same, renderSingleQuestion_statics.
  - apply handleOptionClick_same.
  - apply showExplanation_same.
  - case_bool_decide; [done|]. apply toggleWeek_same.
  - unfold expandAll. case_decide; [|done]. simpl.
    eapply sameQuestions_trans.
    + apply sameQuestions_forEachNode. intros x d0.
      by apply sameQuestions_frame.
    + apply sameQuestions_forEachNode. intros x d0.
      by apply sameQuestions_classListAdd.
  - unfold collapseAll. case_decide; [|done]. simpl.
    eapply sameQuestions_trans.
    + apply sameQuestions_forEachNode. intros x d0.
      by apply sameQuestions_frame.
    + apply sameQuestions_forEachNode. intros x d0.
      by apply sameQuestions_classListRemove.
Qed.

Lemma run_same es s : sameQuestions (document (run es s)) (document s).
Proof.
  revert s. induction es as [|e es IH]; intros s; [done|].
  rewrite run_cons.
  eapply sameQuestions_trans; [apply IH|apply dispatch_same].
Qed.

Lemma DOMContentLoaded_same d :
  sameQuestions (document (DOMContentLoaded d)) d.
Proof.
  destruct (DOMContentLoaded_static d) as (Hn & Hr & Hc).
  split; [done|]. split; [done|]. intros x. by apply Hc.
Qed.

(** ** Pages whose tree is as parsed *)

Lemma kidsOf_not_key (t : gmap node (list node)) n :
  n ∉ (map_to_list t).*1 → kidsOf t n = [].
Proof.
  intros Hn. unfold kidsOf. destruct (t !! n) as [l|] eqn:Hl; [|done].
  destruct Hn. apply list_elem_of_fmap. exists (n, l). split; [done|].
  by apply elem_of_map_to_list.
Qed.

Lemma treeAsParsedCheck_sound d s :
  treeAsParsedCheck d s = true → treeAsParsed d s.
Proof.
  unfold treeAsParsedCheck. rewrite forallb_forall. intros H n.
  destruct (decide (n ∈ (map_to_list (childNodes d)).*1
                        ++ (map_to_list (childNodes (document s))).*1))
    as [Hn|Hn].
  - apply list_elem_of_In in Hn. specialize (H n Hn).
    apply orb_true_iff in H as [H|H].
    + left. by apply bool_decide_eq_true in H.
    + right. apply andb_true_iff in H as [H1 H2].
      by apply bool_decide_eq_true in H1.
  - left. apply not_elem_of_app in Hn as [H1 H2].
    unfold kids. by rewrite !kidsOf_not_key.
Qed.

(** The nodes that may have been emptied: the script's sinks and whatever
    else has lost its children. *)
Lemma treeAsParsed_settled d s :
  questionFreeSinks d = true → treeAsParsed d s →
  ∃ V, (∀ v, v ∈ sinks d → v ∈ V)
       ∧ (∀ v, v ∈ V → questionFree d v = true)
       ∧ Settled (childNodes d) (childNodes (document s)) V None.
Proof.
  intros Hfree Hs.
  exists (sinks d ++ filter (λ n, kids (document s) n ≠ kids d n)
                       (map_to_list (childNodes d)).*1).
  split; [intros v Hv; apply elem_of_app; by left|]. split; [|split].
  - intros v [Hv|Hv]%elem_of_app.
    + by apply questionFreeSinks_spec.
    + apply list_elem_of_filter in Hv as [Hne _].
      by destruct (Hs v) as [?|[_ ?]].
  - intros n Hn. apply not_elem_of_app in Hn as [_ Hn].
    destruct (Hs n) as [H|[H _]]; [done|].
    destruct (decide (kids (document s) n = kids d n)) as [|Hne]; [done|].
    destruct (decide (n ∈ (map_to_list (childNodes d)).*1)) as [Hk|Hk].
    + destruct Hn. by apply list_elem_of_filter.
    + unfold kids in H. rewrite H. symmetry. by apply kidsOf_not_key.
  - intros v _. destruct (Hs v) as [H|[H _]]; auto.
Qed.

Lemma settled_treeAsParsed d s V :
  (∀ v, v ∈ V → questionFree d v = true) →
  Settled (childNodes d) (childNodes (document s)) V None →
  treeAsParsed d s.
Proof.
  intros HV [H1 H2] n. destruct (decide (n ∈ V)) as [Hn|Hn].
  - destruct (H2 n Hn) as [H|H]; [right|left]; auto.
  - left. by apply H1.
Qed.

Lemma DOMContentLoaded_treeAsParsed d :
  questionFreeSinks d = true → treeAsParsed d (DOMContentLoaded d).
Proof.
  intros Hfree. apply (settled_treeAsParsed d _ (sinks d)).
  - intros v Hv. by apply questionFreeSinks_spec.
  - apply DOMContentLoaded_tree.
Qed.

Lemma loaded_surface s s' :
  loaded s' = loaded s →
  singleQuestionContainer s' = singleQuestionContainer s
  ∧ questionProgress s' = questionProgress s.
Proof. unfold loaded. by intros [= _ -> -> _ _ _]. Qed.

(** ** C1: List -> Single/Exam -> List *)

Lemma renderSingleQuestion_done i s :
  (allQuestions s ≠ [] → i < length (allQuestions s)) →
  (∀ c e, singleQuestionContainer s = Some c → allQuestions s !! i = Some e →
          c ∉ inclusiveDescendants (document s) (element e)) →
  ∃ s', renderSingleQuestion i s = Done s'.
Proof.
  intros Hi Hout. unfold renderSingleQuestion.
  destruct (singleQuestionContainer s) as [c|]; [|by eexists].
  destruct (questionProgress s) as [pr|]; [|by eexists].
  destruct (prevQuestionBtn s) as [pv|]; [|by eexists].
  destruct (nextQuestionBtn s) as [nx|]; [|by eexists].
  case_bool_decide as Hlen; [by eexists|].
  cbn [allQuestions withCurrentQuestionIndex onDocument withDocument].
  destruct (allQuestions s !! i) as [e|] eqn:He.
  2:{ apply lookup_ge_None in He.
      assert (allQuestions s ≠ []) by (by destruct (allQuestions s)).
      specialize (Hi H). lia. }
  unfold appendChild. rewrite insertBefore_ok; [by eexists| |done].
  intros Hin. apply (Hout c e eq_refl eq_refl).
  unfold inclusiveDescendants in *.
  apply (subtree_sub _ (<[c := []]> (childNodes (document s)))); [|exact Hin].
  intros p x. rewrite kidsOf_insert. case_decide; [|done].
  by intros ?%elem_of_nil.
Qed.

Lemma switchMode_show_done s m :
  m ≠ ModeList → currentMode s ≠ m →
  (allQuestions s ≠ [] → currentQuestionIndex s < length (allQuestions s)) →
  (∀ c e, singleQuestionContainer s = Some c →
          allQuestions s !! currentQuestionIndex s = Some e →
          c ∉ inclusiveDescendants (document s) (element e)) →
  ∃ s1, switchMode m s = Done s1.
Proof.
  intros Hm Hcur Hi Hout. unfold switchMode. rewrite decide_False by done.
  set (s3 := onDocument _ _).
  destruct (markModeButton_loop_frame m
              (querySelectorAll (document s) (isModeBtn (document s)))
              (withBodyViewMode (Some (modeName m)) (document s)))
    as (Ht & _ & _ & _ & _ & Hn & _).
  assert (Hrender : ∃ s1, renderSingleQuestion (currentQuestionIndex s3) s3
                          = Done s1).
  { apply renderSingleQuestion_done; [exact Hi|].
    intros c e Hc He. unfold inclusiveDescendants.
    change (childNodes (document s3))
      with (childNodes (forEachNode (markModeButton m)
                          (querySelectorAll (document s) (isModeBtn (document s)))
                          (withBodyViewMode (Some (modeName m)) (document s)))).
    change (nodeCount (document s3))
      with (nodeCount (forEachNode (markModeButton m)
                         (querySelectorAll (document s) (isModeBtn (document s)))
                         (withBodyViewMode (Some (modeName m)) (document s)))).
    rewrite Ht, Hn. by apply Hout. }
  by destruct m.
Qed.

Lemma switchMode_show_settled d V s m :
  wellFormed d → m ≠ ModeList → currentMode s ≠ m →
  Settled (childNodes d) (childNodes (document s)) V None →
  Forall (Recorded (childNodes d) V) (allQuestions s) →
  (∀ c, singleQuestionContainer s = Some c → c ∈ V) →
  (∀ pr, questionProgress s = Some pr → pr ∈ V) →
  let s1 := pageOf (switchMode m s) in
  ∃ pending,
    match singleQuestionContainer s with
    | Some c => Settled (childNodes d) (<[c := []]> (childNodes (document s1)))
                  V pending
    | None => Settled (childNodes d) (childNodes (document s1)) V pending
    end
    ∧ (pending = None
       ∨ ∃ c e, singleQuestionContainer s = Some c
                ∧ allQuestions s !! currentQuestionIndex s = Some e
                ∧ pending = Some (element e)).
Proof.
  intros Hwf Hm Hcur Hs Hreg HcV HprV s1.
  unfold s1, switchMode. rewrite decide_False by done.
  set (s3 := onDocument _ _).
  assert (Ht3 : childNodes (document s3) = childNodes (document s)).
  { by destruct (markModeButton_loop_frame m
                   (querySelectorAll (document s) (isModeBtn (document s)))
                   (withBodyViewMode (Some (modeName m)) (document s)))
      as (Ht & _). }
  assert (Hrender : ∃ pending,
    match singleQuestionContainer s with
    | Some c => Settled (childNodes d)
                  (<[c := []]> (childNodes
                     (document (pageOf (renderSingleQuestion
                                          (currentQuestionIndex s) s3)))))
                  V pending
    | None => Settled (childNodes d)
                (childNodes (document (pageOf (renderSingleQuestion
                                                 (currentQuestionIndex s) s3))))
                V pending
    end
    ∧ (pending = None
       ∨ ∃ c e, singleQuestionContainer s = Some c
                ∧ allQuestions s !! currentQuestionIndex s = Some e
                ∧ pending = Some (element e))).
  { destruct (singleQuestionContainer s) as [c|] eqn:Hc.
    - destruct (renderSingleQuestion_settled (childNodes d) (nodeCount d)
                  V (proj1 Hwf) (currentQuestionIndex s) s3 c)
        as (pending & Hp1 & Hp2); try done.
      + by rewrite Ht3.
      + by apply HcV.
      + exists pending. split; [done|].
        destruct Hp2 as [->|(e & He & ->)]; [by left|right].
        exists c, e. done.
    - exists None. split; [|by left].
      unfold renderSingleQuestion.
      change (singleQuestionContainer s3) with (singleQuestionContainer s).
      rewrite Hc. simpl pageOf. by rewrite Ht3. }
  by destruct m.
Qed.

Lemma switchMode_list_settled d V s pending :
  wellFormed d → currentMode s ≠ ModeList →
  Forall (Recorded (childNodes d) V) (allQuestions s) →
  match singleQuestionContainer s with
  | Some c => c ∈ V
              ∧ Settled (childNodes d) (<[c := []]> (childNodes (document s)))
                  V pending
  | None => Settled (childNodes d) (childNodes (document s)) V pending
  end →
  pending = None
  ∨ (∃ i e, allQuestions s !! i = Some e ∧ pending = Some (element e)
            ∧ ∀ j e', j < i → allQuestions s !! j = Some e' →
                      originalNextSibling e' ≠ Some (element e)) →
  ∃ s2, switchMode ModeList s = Done s2
        ∧ Settled (childNodes d) (childNodes (document s2)) V None.
Proof.
  intros Hwf Hmode Hreg Hs Hpend.
  unfold switchMode. rewrite decide_False by done.
  set (s3 := onDocument _ _).
  assert (Ht3 : childNodes (document s3) = childNodes (document s)).
  { by destruct (markModeButton_loop_frame ModeList
                   (querySelectorAll (document s) (isModeBtn (document s)))
                   (withBodyViewMode (Some (modeName ModeList)) (document s)))
      as (Ht & _). }
  destruct (restoreListView_settled (childNodes d) (nodeCount d) V
              (proj1 Hwf) s3 pending) as (t' & Hr & Ht'); try done.
  - change (singleQuestionContainer s3) with (singleQuestionContainer s).
    by rewrite Ht3.
  - exists (onDocument (withChildNodes t') s3). by split.
Qed.




(** ** C6: the navigation buttons *)

Lemma loaded_buttons s s' :
  loaded s' = loaded s →
  prevQuestionBtn s' = prevQuestionBtn s ∧ nextQuestionBtn s' = nextQuestionBtn s.
Proof. unfold loaded. by intros [= _ _ _ -> -> _]. Qed.

(** The two buttons are looked up under different ids, so they are
    different elements. *)
Lemma DOMContentLoaded_buttons_differ d pv nx :
  prevQuestionBtn (DOMContentLoaded d) = Some pv →
  nextQuestionBtn (DOMContentLoaded d) = Some nx → pv ≠ nx.
Proof.
  simpl. intros Hpv%getElementById_Some Hnx%getElementById_Some ->.
  rewrite Hpv in Hnx. by injection Hnx.
Qed.

(** C6.  In any state reachable from the loaded page with all controls
    present and a non-empty registry: whenever [renderSingleQuestion i]
    returns normally, the previous button is disabled exactly when
    [i = 0] and the next button exactly when [i = length - 1], so with a
    registry of length 1 both are disabled; and it does return normally
    when [i] is an index of the registry and the question to show does not
    contain the display surface. *)
Theorem renderSingleQuestion_navigation (d : Document) (es : list Event)
    (i : nat) (c pr pv nx : node) :
  let s := run es (DOMContentLoaded d) in
  singleQuestionContainer s = Some c → questionProgress s = Some pr →
  prevQuestionBtn s = Some pv → nextQuestionBtn s = Some nx →
  allQuestions s ≠ [] →
  (∀ s', renderSingleQuestion i s = Done s' →
         (hasDisabled (document s') pv = true ↔ i = 0)
         ∧ (hasDisabled (document s') nx = true
            ↔ i = length (allQuestions s) - 1)
         ∧ (length (allQuestions s) = 1 →
            hasDisabled (document s') pv = true
            ∧ hasDisabled (document s') nx = true))
  ∧ (∀ e, allQuestions s !! i = Some e →
          c ∉ inclusiveDescendants (document s) (element e) →
          ∃ s', renderSingleQuestion i s = Done s').
Proof.
  intros s Hc Hpr Hpv Hnx Hne.
  assert (Hdiff : pv ≠ nx).
  { destruct (run_loaded es (DOMContentLoaded d)) as [Hl _].
    apply loaded_buttons in Hl as [Hl1 Hl2]. fold s in Hl1, Hl2.
    apply (DOMContentLoaded_buttons_differ d); congruence. }
  assert (Hlen : length (allQuestions s) ≠ 0)
    by (by destruct (allQuestions s)).
  unfold renderSingleQuestion. rewrite Hc, Hpr, Hpv, Hnx.
  rewrite bool_decide_eq_false_2 by done.
  cbn [allQuestions withCurrentQuestionIndex onDocument withDocument].
  split.
  - intros s' Hs'.
    destruct (allQuestions s !! i) as [e|] eqn:He; [|done].
    destruct (appendChild c (element e) _) as [x|d']; [done|].
    simpl in Hs'. injection Hs' as <-.
    cbn [document onDocument withDocument].
    assert (Hp : hasDisabled
                   (setDisabled nx (bool_decide (i = length (allQuestions s) - 1))
                      (setDisabled pv (bool_decide (i = 0))
                         (setTextContent pr
                            (progressText i (length (allQuestions s))) d'))) pv
                 = bool_decide (i = 0)).
    { rewrite hasDisabled_setDisabled, decide_False by done.
      by rewrite hasDisabled_setDisabled, decide_True. }
    assert (Hn : hasDisabled
                   (setDisabled nx (bool_decide (i = length (allQuestions s) - 1))
                      (setDisabled pv (bool_decide (i = 0))
                         (setTextContent pr
                            (progressText i (length (allQuestions s))) d'))) nx
                 = bool_decide (i = length (allQuestions s) - 1)).
    { by rewrite hasDisabled_setDisabled, decide_True. }
    rewrite Hp, Hn, !bool_decide_eq_true.
    split; [done|]. split; [done|].
    intros H1. apply lookup_lt_Some in He. lia.
  - intros e He Hout. rewrite He.
    unfold appendChild. rewrite insertBefore_ok; [by eexists| |done].
    intros Hin. apply Hout.
    unfold inclusiveDescendants in *.
    apply (subtree_sub _ (<[c := []]> (childNodes (document s)))); [|exact Hin].
    intros p x. rewrite kidsOf_insert. case_decide; [|done].
    by intros ?%elem_of_nil.
Qed.

Lemma renderSingleQuestion_navigation_witness :
  let s := run [ModeClick ModeSingle] (DOMContentLoaded quizDocument) in
  allQuestions s ≠ []
  ∧ (∀ s', renderSingleQuestion 1 s = Done s' →
           (hasDisabled (document s') 7 = true ↔ 1 = 0)
           ∧ (hasDisabled (document s') 8 = true
              ↔ 1 = length (allQuestions s) - 1)
           ∧ (length (allQuestions s) = 1 →
              hasDisabled (document s') 7 = true
              ∧ hasDisabled (document s') 8 = true))
  ∧ (∀ e, allQuestions s !! 1 = Some e →
          5 ∉ inclusiveDescendants (document s) (element e) →
          ∃ s', renderSingleQuestion 1 s = Done s').
Proof.
  split; [by vm_compute|].
  apply (renderSingleQuestion_navigation quizDocument [ModeClick ModeSingle]
           1 5 6 7 8); by vm_compute.
Defined.

(** ** C3: [restoreListView] when a recorded sibling is detached *)

(** C3, evaluated on [adjacentDocument].  After Single and Next the second
    question is on display and the first one is detached.
    [restoreListView] empties the display surface; the first entry's
    recorded next sibling, the second question, is then no child of the
    recorded parent.  The element is not appended as last child:
    [insertBefore] raises NotFoundError, the call does not return
    normally, the loop stops at the first entry and neither question is
    put back under the parent. *)
Lemma restoreListView_sibling_gone :
  let s := run [ModeClick ModeSingle; NextClick]
             (DOMContentLoaded adjacentDocument) in
  treeCheck adjacentDocument = true
  ∧ kids adjacentDocument 2 = [3; 4]
  ∧ allQuestions s = [mkQuestionRef 3 (Some 2) (Some 4);
                      mkQuestionRef 4 (Some 2) None]
  ∧ kids (document s) 2 = [] ∧ kids (document s) 5 = [4]
  ∧ ∃ s', restoreListView s = Threw NotFoundError s'
          ∧ kids (document s') 2 = [] ∧ kids (document s') 5 = []
          ∧ questionsInDocument (document s') = []
          ∧ ¬ (∃ s'', restoreListView s = Done s'').
Proof.
  split; [by vm_compute|]. split; [by vm_compute|]. split; [by vm_compute|].
  split; [by vm_compute|]. split; [by vm_compute|].
  eexists. split; [by vm_compute|]. split; [by vm_compute|].
  split; [by vm_compute|]. split; [by vm_compute|].
  intros [s'' H]. vm_compute in H. discriminate.
Qed.

(** ** C7: repeated [restoreListView] on adjacent questions *)

(** C7, evaluated on [adjacentDocument].  After Single, Next, the click
    on the List button runs [restoreListView], which raises NotFoundError
    at the first entry; the document then holds no question element, and
    calling [restoreListView] again raises again and changes nothing. *)
Lemma restoreListView_adjacent_questions :
  let s0 := DOMContentLoaded adjacentDocument in
  let s := run [ModeClick ModeSingle; NextClick] s0 in
  let s1 := pageOf (dispatch (ModeClick ModeList) s) in
  treeCheck adjacentDocument = true
  ∧ questionFreeSinks adjacentDocument = true
  ∧ questionsInDocument (document s0) = [3; 4]
  ∧ element <$> allQuestions s0 = [3; 4]
  ∧ dispatch (ModeClick ModeList) s = Threw NotFoundError s1
  ∧ questionsInDocument (document s1) = []
  ∧ restoreListView s1 = Threw NotFoundError s1
  ∧ questionsInDocument (document (pageOf (restoreListView s1)))
    ≠ element <$> allQuestions s0.
Proof. repeat (apply conj; [by vm_compute|]). by vm_compute. Qed.
